(** * A shallow embedding of the PDF renderer of Github-Repo-to-Pdf

    The development follows [src/services/pdf.ts] ([generateRepoPdf] and its
    inner closures [addPageBackground] and [checkNewPage]), the data model of
    [src/types.ts], and the reordering step at the end of [formatRepoForPdf]
    in [src/services/gemini.ts].

    Numbers.  The source computes with JavaScript numbers.  Every quantity of
    the layout (margins, cursor, line height, text widths) is modelled as a
    rational [Q]; comparisons are the exact ones.  Equality of positions is
    therefore [Qeq] ([==]) where two different expressions are compared.

    jsPDF.  The document object is a third-party library.  It is modelled by
    the sequence of marks the renderer asks it to draw, together with the
    part of its state the renderer can observe (current page, font, colours).
    Its page size, its text metrics, the set of colour strings it accepts and
    its serialiser are parameters of the development. *)

From Stdlib Require Import QArith Lqa Lia ZArith List String Ascii Bool.
From Stdlib Require Import Permutation Sorted.
Import ListNotations.

(* ------------------------------------------------------------------ *)
(** ** Rational comparisons as booleans *)

Definition Qgtb (a b : Q) : bool := negb (Qle_bool a b).

(** [n] as a number, for [array.length * k]. *)
Definition Qnat (n : nat) : Q := inject_Z (Z.of_nat n).

(* ------------------------------------------------------------------ *)
(** ** The data model of [types.ts] *)

Inductive Font : Type := Courier | Helvetica | Times.
Inductive Theme : Type := light | dark.

Record HighlightedToken : Type := mkToken {
  text : string;
  color : string
}.

Record HighlightedLine : Type := mkLine {
  tokens : list HighlightedToken
}.

Record HighlightedFile : Type := mkFile {
  path : string;
  language : string;
  lines : list HighlightedLine
}.

Record FormattedRepoData : Type := mkData {
  title : string;
  tableOfContents : list string;
  files : list HighlightedFile
}.

Record PdfOptions : Type := mkOptions {
  font : Font;
  fontSize : Q;
  lineSpacing : Q;
  theme : Theme
}.

(* ------------------------------------------------------------------ *)
(** ** Results and the state-and-exception monad

    A call either returns or throws; nothing in [pdf.ts] catches. *)

Inductive Result (A : Type) : Type :=
| Ok (a : A)
| Thrown (msg : string).

Arguments Ok {A} a.
Arguments Thrown {A} msg.

Definition M (S A : Type) : Type := S -> Result (A * S).

Definition ret {S A : Type} (a : A) : M S A := fun s => Ok (a, s).

Definition bind {S A B : Type} (c : M S A) (k : A -> M S B) : M S B :=
  fun s => match c s with
           | Ok (a, s') => k a s'
           | Thrown m => Thrown m
           end.

Declare Scope m_scope.
Delimit Scope m_scope with m.
Notation "x <- c ;; k" := (bind c (fun x => k))
  (at level 61, c at next level, right associativity) : m_scope.
Notation "c ;; k" := (bind c (fun _ => k))
  (at level 61, right associativity) : m_scope.

(** [array.forEach(callback)] for a callback that only acts on the state. *)
Fixpoint forEach {S A : Type} (l : list A) (f : A -> M S unit) : M S unit :=
  match l with
  | [] => ret tt
  | a :: l' => bind (f a) (fun _ => forEach l' f)
  end.

(** [array.forEach(callback)] for a callback that also updates one captured
    local variable, here threaded as an accumulator. *)
Fixpoint forEachWith {S A V : Type} (l : list A) (f : A -> V -> M S V) (v : V)
  : M S V :=
  match l with
  | [] => ret v
  | a :: l' => bind (f a v) (fun v' => forEachWith l' f v')
  end.

(* ------------------------------------------------------------------ *)
(** ** Colour strings

    [/^#[0-9A-F]{6}$/i.test(color)]: a hash sign followed by exactly six
    hexadecimal digits of either case, and nothing else. *)

Definition is_hex_digit (c : ascii) : bool :=
  let n := nat_of_ascii c in
  ((48 <=? n) && (n <=? 57) || (65 <=? n) && (n <=? 70)
   || (97 <=? n) && (n <=? 102))%nat.

Definition is_hex_color (s : string) : bool :=
  match s with
  | String "#" r =>
      (String.length r =? 6)%nat && forallb is_hex_digit (list_ascii_of_string r)
  | _ => false
  end.

Definition DARK_MODE_BACKGROUND : string := "#1E293B".
Definition DARK_MODE_TEXT : string := "#E2E8F0".
Definition LIGHT_MODE_TEXT : string := "#000000".

(* ------------------------------------------------------------------ *)
(** ** The jsPDF document, as far as the renderer uses it *)

Inductive FontStyle : Type := normal | bold.

(** Which [doc.text] call of [generateRepoPdf] drew a run: the title
    (line 47), the heading of the table of contents (56), one of its
    entries (64), a file separator (79) or a code token (116). *)
Inductive Site : Type :=
| TitleSite | TocHeadingSite | TocEntrySite | SeparatorSite | TokenSite.

(** One [doc.text(text, x, y)] call on a page.  [r_text] is the list of
    lines handed over: [splitTextToSize] yields a list, a plain string is
    the one-element list. *)
Record Run : Type := mkRun {
  r_site : Site;
  r_page : nat;
  r_text : list string;
  r_x : Q;
  r_y : Q;
  r_color : string;
  r_font : Font;
  r_style : FontStyle;
  r_size : Q
}.

Inductive Mark : Type :=
| MText (r : Run)
| MRect (page : nat) (fill : string) (x y w h : Q).

Record Doc : Type := mkDoc {
  currentPage : nat;
  fontName : Font;
  fontStyle : FontStyle;
  docFontSize : Q;
  textColor : string;
  fillColor : string;
  marks : list Mark
}.

(** [new jsPDF()]: one empty page, Helvetica 16, black. *)
Definition newDoc : Doc :=
  {| currentPage := 1; fontName := Helvetica; fontStyle := normal;
     docFontSize := 16; textColor := "#000000"; fillColor := "#000000";
     marks := [] |}.

Fixpoint runs_of (ms : list Mark) : list Run :=
  match ms with
  | [] => []
  | MText r :: ms' => r :: runs_of ms'
  | MRect _ _ _ _ _ _ :: ms' => runs_of ms'
  end.

Definition runs (d : Doc) : list Run := runs_of (marks d).

(** The state of one call of [generateRepoPdf]: the document, the captured
    variable [y], and the history of the cursor, which records the pair
    (current page, [y]) after every assignment to [y]. *)
Record St : Type := mkSt {
  doc : Doc;
  y : Q;
  trace : list (nat * Q)
}.

(* ------------------------------------------------------------------ *)
(** ** The reordering step of [formatRepoForPdf] ([gemini.ts], 176-180) *)

(** [array.indexOf(p)]: the first position holding [p], or [-1]. *)
Fixpoint indexOfFrom (i : Z) (l : list string) (p : string) : Z :=
  match l with
  | [] => (-1)%Z
  | q :: l' => if String.eqb q p then i else indexOfFrom (i + 1)%Z l' p
  end.

Definition indexOf (l : list string) (p : string) : Z := indexOfFrom 0%Z l p.

(** The comparator handed to [sort]: [indexA - indexB]. *)
Definition compareByToc (toc : list string) (a b : HighlightedFile) : Z :=
  (indexOf toc (path a) - indexOf toc (path b))%Z.

(** [Array.prototype.sort(compare)] is a stable sort: an element moves in
    front of another only when the comparator says it is strictly smaller.
    Here as an insertion sort that keeps equal elements in arrival order. *)
Fixpoint insert {A : Type} (compare : A -> A -> Z) (a : A) (l : list A) : list A :=
  match l with
  | [] => [a]
  | b :: l' => if (compare a b <=? 0)%Z then a :: b :: l'
               else b :: insert compare a l'
  end.

Fixpoint sort {A : Type} (compare : A -> A -> Z) (l : list A) : list A :=
  match l with
  | [] => []
  | a :: l' => insert compare a (sort compare l')
  end.

Definition sortedHighlightedFiles (toc : list string)
  (highlightedFiles : list HighlightedFile) : list HighlightedFile :=
  sort (compareByToc toc) highlightedFiles.



(* ------------------------------------------------------------------ *)
(** ** A concrete instance of the parameters

    An A4 page in millimetres, a fixed-pitch font, no word wrapping, a
    document object that takes six-digit hexadecimal colours only, and the
    document itself as its serialised form.  The data are the end-to-end
    scenario of the specification. *)

Definition a4Height : Q := 297.
Definition a4Width : Q := 210.

Definition fixedPitch (_ : Font) (_ : FontStyle) (size : Q) (t : string) : Q :=
  Qnat (String.length t) * size * (1 # 4).

Definition unsplit (_ : Font) (_ : FontStyle) (_ : Q) (t : string) (_ : Q)
  : list string := [t].

Definition demoOptions : PdfOptions :=
  {| font := Courier; fontSize := 9; lineSpacing := 1.15; theme := light |}.

Definition demoFile : HighlightedFile :=
  {| path := "x.ts"; language := "typescript";
     lines := [ {| tokens := [ {| text := "const"; color := "#800080" |};
                               {| text := " "; color := "#000000" |};
                               {| text := "a"; color := "#0000FF" |} ] |} ] |}.

Definition demoData : FormattedRepoData :=
  {| title := "Code Documentation for demo";
     tableOfContents := ["x.ts"%string];
     files := [demoFile] |}.


Definition wideToken : HighlightedToken :=
  {| text := "const"; color := "fuchsia" |}.

Definition demoLine : HighlightedLine :=
  {| tokens := [ {| text := "const"; color := "#800080" |};
                 {| text := " "; color := "#000000" |};
                 {| text := "a"; color := "#0000FF" |} ] |}.



(* ------------------------------------------------------------------ *)
(** ** String operations of the JavaScript library, as the code uses them *)

(** [s.startsWith(pat)] *)
Fixpoint startsWith (s pat : string) {struct pat} : bool :=
  match pat with
  | EmptyString => true
  | String a pat' =>
      match s with
      | EmptyString => false
      | String b s' => Ascii.eqb a b && startsWith s' pat'
      end
  end.

(** [s.endsWith(suf)]: some tail of [s] is [suf]. *)
Fixpoint endsWith (s suf : string) : bool :=
  String.eqb s suf
  || match s with
     | EmptyString => false
     | String _ s' => endsWith s' suf
     end.

(** [s.includes(pat)]: [pat] starts somewhere in [s]. *)
Fixpoint includes (s pat : string) : bool :=
  startsWith s pat
  || match s with
     | EmptyString => false
     | String _ s' => includes s' pat
     end.

(** [s] without its first [n] characters. *)
Fixpoint drop (n : nat) (s : string) : string :=
  match n with
  | O => s
  | S n' => match s with
            | EmptyString => EmptyString
            | String _ s' => drop n' s'
            end
  end.

(** [s.replace(pat, rep)] for a string pattern and a replacement without
    dollar signs: the first occurrence of [pat] is replaced. *)
Fixpoint replaceFirst (pat rep s : string) : string :=
  if startsWith s pat then (rep ++ drop (String.length pat) s)%string
  else match s with
       | EmptyString => EmptyString
       | String c s' => String c (replaceFirst pat rep s')
       end.

(** [s.split(sep)] for a one-character separator. *)
Fixpoint split (sep : ascii) (s : string) : list string :=
  match s with
  | EmptyString => [EmptyString]
  | String c s' =>
      if Ascii.eqb c sep then EmptyString :: split sep s'
      else match split sep s' with
           | h :: t => String c h :: t
           | [] => [String c EmptyString]
           end
  end.

(** The character [c] occurs in [s]. *)
Fixpoint has (c : ascii) (s : string) : bool :=
  match s with
  | EmptyString => false
  | String a s' => Ascii.eqb a c || has c s'
  end.

Fixpoint string_map (f : ascii -> ascii) (s : string) : string :=
  match s with
  | EmptyString => EmptyString
  | String c s' => String (f c) (string_map f s')
  end.

Fixpoint string_forallb (f : ascii -> bool) (s : string) : bool :=
  match s with
  | EmptyString => true
  | String c s' => f c && string_forallb f s'
  end.

(** [s.indexOf(c)] and [s.lastIndexOf(c)] for a one-character string:
    the position, or [-1]. *)
Fixpoint indexOfCharFrom (i : Z) (c : ascii) (s : string) : Z :=
  match s with
  | EmptyString => (-1)%Z
  | String a s' => if Ascii.eqb a c then i else indexOfCharFrom (i + 1)%Z c s'
  end.

Definition indexOfChar (c : ascii) (s : string) : Z := indexOfCharFrom 0%Z c s.

Fixpoint lastIndexOfCharFrom (i : Z) (c : ascii) (s : string) : Z :=
  match s with
  | EmptyString => (-1)%Z
  | String a s' =>
      let j := lastIndexOfCharFrom (i + 1)%Z c s' in
      if (0 <=? j)%Z then j else if Ascii.eqb a c then i else (-1)%Z
  end.

Definition lastIndexOfChar (c : ascii) (s : string) : Z :=
  lastIndexOfCharFrom 0%Z c s.

(** [s.substring(a, b)]: both ends are clamped to the string and swapped
    when out of order. *)
Definition js_substring (a b : Z) (s : string) : string :=
  let len := Z.of_nat (String.length s) in
  let a' := Z.min (Z.max a 0) len in
  let b' := Z.min (Z.max b 0) len in
  let lo := Z.min a' b' in
  let hi := Z.max a' b' in
  String.substring (Z.to_nat lo) (Z.to_nat (hi - lo)) s.

(** Letters [A]-[Z] become [a]-[z]; every other character stays. *)
Definition lowerAscii (c : ascii) : ascii :=
  let n := nat_of_ascii c in
  if ((65 <=? n) && (n <=? 90))%nat then ascii_of_nat (n + 32) else c.

Definition is7bit (c : ascii) : bool := (nat_of_ascii c <? 128)%nat.

(* ------------------------------------------------------------------ *)
(** ** The GitHub service ([parseRepoUrl], [fetchGitHubAPI], [getRepoFiles])
    and its constants *)

Definition TEXT_FILE_EXTENSIONS : list string :=
  [ ".txt"; ".md"; ".json"; ".js"; ".jsx"; ".ts"; ".tsx"; ".html"; ".css";
    ".scss"; ".py"; ".java"; ".c"; ".cpp"; ".h"; ".cs"; ".go"; ".rs"; ".rb";
    ".php"; ".yml"; ".yaml"; ".toml"; ".ini"; ".sh"; ".bash"; ".zsh";
    "dockerfile"; "license"; ".gitignore"; ".npmrc"; ".eslintrc";
    ".prettierrc"; ".xml"; ".svg"; ".env"; ".env.local"; ".env.development";
    ".env.production"; "readme" ]%string.

Definition MAX_FILES_TO_PROCESS : nat := 100.
Definition MAX_FILE_SIZE_BYTES : Z := 100000.

Inductive TreeType : Type := blob | tree | commit.

(** [GitHubTreeItem]; [size] is optional. *)
Record GitHubTreeItem : Type := mkTreeItem {
  tree_path : string;
  tree_mode : string;
  tree_type : TreeType;
  tree_sha : string;
  tree_size : option Z;
  tree_url : string
}.

Record RepoRef : Type := mkRepoRef {
  owner : string;
  repo : string
}.

(** [parseRepoUrl].  [parseURL] stands for [new URL(url)]: the host name
    and the path name of the URL, or nothing when the constructor throws. *)
Definition parseRepoUrl (parseURL : string -> option (string * string))
  (url : string) : option RepoRef :=
  match parseURL url with
  | None => None
  | Some (hostname, pathname) =>
      if negb (String.eqb hostname "github.com") then None
      else
        let pathParts :=
          filter (fun p => negb (String.eqb p EmptyString)) (split "/" pathname) in
        if (List.length pathParts <? 2)%nat then None
        else match pathParts with
             | o :: r :: _ =>
                 Some {| owner := o; repo := replaceFirst ".git" EmptyString r |}
             | _ => None
             end
  end.

(** The message [fetchGitHubAPI] throws for a response that is not ok. *)
Definition fetchGitHubAPI_error (status : Z) (statusText : string) : string :=
  if (status =? 404)%Z then "Repository not found. Please check the URL."
  else if (status =? 403)%Z
       then "GitHub API rate limit exceeded. Please wait and try again later."
       else ("GitHub API request failed: " ++ statusText)%string.

(** The filter of [getRepoFiles] (lines 50-54); [toLowerCase] stands for
    [String.prototype.toLowerCase]. *)
Definition isTextFile (toLowerCase : string -> string) (item : GitHubTreeItem)
  : bool :=
  match tree_type item with blob => true | _ => false end
  && match tree_size item with
     | Some n => negb (n =? 0)%Z && (n <? MAX_FILE_SIZE_BYTES)%Z
     | None => false
     end
  && (existsb (fun ext => endsWith (toLowerCase (tree_path item)) ext)
              TEXT_FILE_EXTENSIONS
      || existsb (String.eqb (last (split "/" (toLowerCase (tree_path item)))
                                EmptyString))
                 TEXT_FILE_EXTENSIONS).

Definition textFiles (toLowerCase : string -> string)
  (items : list GitHubTreeItem) : list GitHubTreeItem :=
  firstn MAX_FILES_TO_PROCESS (filter (isTextFile toLowerCase) items).

(** Lines 50-58 of [getRepoFiles]: the files to fetch, or the error thrown
    when there is none. *)
Definition selectTextFiles (toLowerCase : string -> string)
  (items : list GitHubTreeItem) : Result (list GitHubTreeItem) :=
  if (List.length (textFiles toLowerCase items) =? 0)%nat
  then Thrown "No processable text files found in this repository."
  else Ok (textFiles toLowerCase items).

(* ------------------------------------------------------------------ *)
(** ** The rest of the Gemini service *)

(** [cleanupJsonResponse].  [fenced] stands for [text.match] on the fence
    pattern: its first group, or nothing when the pattern does not match. *)
Definition cleanupJsonResponse (fenced : string -> option string)
  (text : string) : string :=
  let fallback :=
    let firstBrace := indexOfChar "{" text in
    let lastBrace := lastIndexOfChar "}" text in
    if negb (firstBrace =? -1)%Z && (firstBrace <? lastBrace)%Z
    then js_substring firstBrace (lastBrace + 1)%Z text
    else text in
  match fenced text with
  | Some group => if negb (String.eqb group EmptyString) then group else fallback
  | None => fallback
  end.

Record GitHubFile : Type := mkGitHubFile {
  file_path : string;
  file_content : string
}.

(** The parsed answer of the first request: title and table of contents. *)
Record StructureData : Type := mkStructure {
  structure_title : string;
  structure_tableOfContents : list string
}.

(** Lines 165-169: the results that are not [null], in order. *)
Fixpoint pushResults (settledResults : list (option HighlightedFile))
  : list HighlightedFile :=
  match settledResults with
  | [] => []
  | Some result :: rest => result :: pushResults rest
  | None :: rest => pushResults rest
  end.

(** Lines 163-186 of [formatRepoForPdf]: what the function does with the
    parsed structure and the settled results of the highlight requests,
    one per file. *)
Definition assembleRepo (files : list GitHubFile) (structureData : StructureData)
  (settledResults : list (option HighlightedFile)) : Result FormattedRepoData :=
  let highlightedFiles := pushResults settledResults in
  if (List.length highlightedFiles =? 0)%nat && (0 <? List.length files)%nat
  then Thrown "The AI failed to process any of the repository files. This might be a temporary issue."
  else Ok {| title := structure_title structureData;
             tableOfContents := structure_tableOfContents structureData;
             files := sortedHighlightedFiles
                        (structure_tableOfContents structureData)
                        highlightedFiles |}.

(* ------------------------------------------------------------------ *)
(** ** The application ([App.tsx]) *)



Record AppError : Type := mkAppError {
  error_title : string;
  error_message : string
}.

(** Lines 403-417: the error shown for a thrown [Error] with the given
    message. *)
Definition classifyError (toLowerCase : string -> string) (message : string)
  : AppError :=
  let errorMessage := toLowerCase message in
  if includes errorMessage "rate limit" then
    {| error_title := "Rate Limit Exceeded";
       error_message := "You have made too many requests to the GitHub API. Please wait a few minutes and try again." |}
  else if includes errorMessage "not found" then
    {| error_title := "Repository Not Found";
       error_message := "Please double-check the URL and ensure the repository is public and correctly spelled." |}
  else if includes errorMessage "invalid github repository url" then
    {| error_title := "Invalid URL";
       error_message := "The URL provided does not seem to be a valid GitHub repository link. Please check for typos." |}
  else if includes errorMessage "ai failed to process" then
    {| error_title := "AI Processing Error";
       error_message := "The AI could not process the repository files. This can happen with very large or unusual files. Please try again in a moment." |}
  else
    {| error_title := "An Unexpected Error Occurred";
       error_message := message |}.

(** A URL parser for examples: it knows [https://github.com] only. *)
Definition demoParseURL (url : string) : option (string * string) :=
  if startsWith url "https://github.com"
  then Some ("github.com"%string, drop 18 url)
  else None.

Definition demoItem : GitHubTreeItem :=
  {| tree_path := "src/App.tsx"; tree_mode := "100644"; tree_type := blob;
     tree_sha := "0f3a"; tree_size := Some 2048%Z;
     tree_url := "https://api.github.com/repos/o/r/git/blobs/0f3a" |}.


Definition demoRepoFiles : list GitHubFile :=
  [ {| file_path := "x.ts"; file_content := "const a" |};
    {| file_path := "y.ts"; file_content := "let b" |} ].

Definition demoStructure : StructureData :=
  {| structure_title := "Code Documentation for demo";
     structure_tableOfContents := ["x.ts"%string; "y.ts"%string] |}.

(** The highlight request of the second file failed. *)
Definition demoSettled : list (option HighlightedFile) :=
  [Some demoFile; None].

Definition demoAssembled : FormattedRepoData :=
  {| title := "Code Documentation for demo";
     tableOfContents := ["x.ts"%string; "y.ts"%string];
     files := [demoFile] |}.

Definition demoRepoRef : RepoRef :=
  {| owner := "facebook"; repo := "react" |}.

Section Renderer.

(** [doc.internal.pageSize.height] and [.width]. *)
Variables pageHeight pageWidth : Q.

(** [doc.getTextWidth] and [doc.splitTextToSize] under a given font. *)
Variable textWidth : Font -> FontStyle -> Q -> string -> Q.
Variable splitText : Font -> FontStyle -> Q -> string -> Q -> list string.

(** The colour strings [doc.setTextColor] and [doc.setFillColor] take
    without throwing. *)
Variable acceptsColor : string -> bool.

(** [doc.output('blob')]. *)
Variable Blob : Type.
Variable output : Doc -> Blob.

(** *** jsPDF methods *)

Definition doc_setFont (name : Font) (style : FontStyle) (d : Doc) : Result Doc :=
  Ok {| currentPage := currentPage d; fontName := name; fontStyle := style;
        docFontSize := docFontSize d; textColor := textColor d;
        fillColor := fillColor d; marks := marks d |}.

Definition doc_setFontSize (size : Q) (d : Doc) : Result Doc :=
  Ok {| currentPage := currentPage d; fontName := fontName d;
        fontStyle := fontStyle d; docFontSize := size;
        textColor := textColor d; fillColor := fillColor d;
        marks := marks d |}.

Definition doc_setTextColor (c : string) (d : Doc) : Result Doc :=
  if acceptsColor c then
    Ok {| currentPage := currentPage d; fontName := fontName d;
          fontStyle := fontStyle d; docFontSize := docFontSize d;
          textColor := c; fillColor := fillColor d; marks := marks d |}
  else Thrown "Invalid color passed to jsPDF.encodeColorString".

Definition doc_setFillColor (c : string) (d : Doc) : Result Doc :=
  if acceptsColor c then
    Ok {| currentPage := currentPage d; fontName := fontName d;
          fontStyle := fontStyle d; docFontSize := docFontSize d;
          textColor := textColor d; fillColor := c; marks := marks d |}
  else Thrown "Invalid color passed to jsPDF.encodeColorString".

Definition add_mark (m : Mark) (d : Doc) : Doc :=
  {| currentPage := currentPage d; fontName := fontName d;
     fontStyle := fontStyle d; docFontSize := docFontSize d;
     textColor := textColor d; fillColor := fillColor d;
     marks := marks d ++ [m] |}.

Definition doc_rect (x0 y0 w h : Q) (d : Doc) : Result Doc :=
  Ok (add_mark (MRect (currentPage d) (fillColor d) x0 y0 w h) d).

Definition doc_text (site : Site) (t : list string) (x0 y0 : Q) (d : Doc)
  : Result Doc :=
  Ok (add_mark (MText {| r_site := site; r_page := currentPage d;
                         r_text := t; r_x := x0; r_y := y0;
                         r_color := textColor d; r_font := fontName d;
                         r_style := fontStyle d; r_size := docFontSize d |}) d).

Definition doc_addPage (d : Doc) : Result Doc :=
  Ok {| currentPage := S (currentPage d); fontName := fontName d;
        fontStyle := fontStyle d; docFontSize := docFontSize d;
        textColor := textColor d; fillColor := fillColor d;
        marks := marks d |}.

Definition doc_getTextWidth (t : string) (d : Doc) : Q :=
  textWidth (fontName d) (fontStyle d) (docFontSize d) t.

Definition doc_splitTextToSize (t : string) (w : Q) (d : Doc) : list string :=
  splitText (fontName d) (fontStyle d) (docFontSize d) t w.

(** *** Access to the state from the monad *)

Definition call (f : Doc -> Result Doc) : M St unit :=
  fun s => match f (doc s) with
           | Ok d => Ok (tt, {| doc := d; y := y s; trace := trace s |})
           | Thrown m => Thrown m
           end.

Definition ask {A : Type} (f : Doc -> A) : M St A :=
  fun s => Ok (f (doc s), s).

Definition get_y : M St Q := fun s => Ok (y s, s).

Definition set_y (v : Q) : M St unit :=
  fun s => Ok (tt, {| doc := doc s; y := v;
                      trace := trace s ++ [(currentPage (doc s), v)] |}).

Local Open Scope m_scope.
Local Open Scope Q_scope.

(** [y += d] *)
Definition add_y (d : Q) : M St unit :=
  y0 <- get_y ;; set_y (y0 + d).

(** *** The body of [generateRepoPdf] *)

Section Body.

Variable data : FormattedRepoData.
Variable options : PdfOptions.

Definition MARGIN : Q := 15.
Definition contentWidth : Q := pageWidth - MARGIN * 2.

Definition isDarkMode : bool :=
  match theme options with dark => true | light => false end.
Definition FONT_NAME : Font := font options.
Definition FONT_SIZE : Q := fontSize options.
Definition LINE_HEIGHT : Q := FONT_SIZE * 0.5 * lineSpacing options.
Definition defaultTextColor : string :=
  if isDarkMode then DARK_MODE_TEXT else LIGHT_MODE_TEXT.

Definition addPageBackground : M St unit :=
  if isDarkMode then
    call (doc_setFillColor DARK_MODE_BACKGROUND) ;;
    call (doc_rect 0 0 pageWidth pageHeight)
  else ret tt.

Definition checkNewPage (neededHeight : Q) : M St unit :=
  y0 <- get_y ;;
  if Qgtb (y0 + neededHeight) (pageHeight - MARGIN) then
    call doc_addPage ;;
    addPageBackground ;;
    set_y MARGIN
  else ret tt.

(** Lines 95-105: the colour a token is drawn in. *)
Definition tokenColor (c : string) : string :=
  let c1 :=
    if isDarkMode && (String.eqb c "#000000" || String.eqb c "black")
    then DARK_MODE_TEXT
    else if negb isDarkMode && (String.eqb c "#FFFFFF" || String.eqb c "white")
         then LIGHT_MODE_TEXT
         else c in
  if is_hex_color c1 then c1 else defaultTextColor.

(** The test of line 110. *)
Definition wraps (x tokenWidth : Q) : bool :=
  Qgtb x MARGIN && Qgtb (x + tokenWidth) (pageWidth - MARGIN).

(** Lines 94-118: the callback of [line.tokens.forEach]; [x] is the
    variable of the enclosing line callback. *)
Definition renderToken (token : HighlightedToken) (x : Q) : M St Q :=
  call (doc_setTextColor (tokenColor (color token))) ;;
  tokenWidth <- ask (doc_getTextWidth (text token)) ;;
  x1 <- (if wraps x tokenWidth then
           add_y LINE_HEIGHT ;;
           checkNewPage LINE_HEIGHT ;;
           ret MARGIN
         else ret x) ;;
  y0 <- get_y ;;
  call (doc_text TokenSite [text token] x1 y0) ;;
  ret (x1 + tokenWidth).

(** Lines 85-120: the callback of [file.lines.forEach]. *)
Definition renderLine (line : HighlightedLine) : M St unit :=
  checkNewPage LINE_HEIGHT ;;
  let x := MARGIN in
  if (List.length (tokens line) =? 0)%nat then
    add_y LINE_HEIGHT
  else
    forEachWith (tokens line) renderToken x ;;
    add_y LINE_HEIGHT.

Definition separator (file : HighlightedFile) : string :=
  ("File: " ++ path file ++ " (" ++ language file ++ ")")%string.

(** Lines 69-121: the callback of [data.files.forEach]. *)
Definition renderFile (file : HighlightedFile) : M St unit :=
  add_y 10 ;;
  checkNewPage 20 ;;
  call (doc_setTextColor defaultTextColor) ;;
  call (doc_setFont FONT_NAME bold) ;;
  call (doc_setFontSize 12) ;;
  separatorLines <- ask (doc_splitTextToSize (separator file) contentWidth) ;;
  y0 <- get_y ;;
  call (doc_text SeparatorSite separatorLines MARGIN y0) ;;
  add_y (Qnat (List.length separatorLines) * 6 + 4) ;;
  call (doc_setFont FONT_NAME normal) ;;
  call (doc_setFontSize FONT_SIZE) ;;
  forEach (lines file) renderLine.

(** Lines 61-66: the body of the loop over [data.tableOfContents]. *)
Definition renderTocEntry (p : string) : M St unit :=
  pathLines <- ask (doc_splitTextToSize p contentWidth) ;;
  checkNewPage (Qnat (List.length pathLines) * LINE_HEIGHT) ;;
  y0 <- get_y ;;
  call (doc_text TocEntrySite pathLines MARGIN y0) ;;
  add_y (Qnat (List.length pathLines) * LINE_HEIGHT).

(** Lines 38-48. *)
Definition renderTitle : M St unit :=
  addPageBackground ;;
  call (doc_setTextColor defaultTextColor) ;;
  call (doc_setFont FONT_NAME bold) ;;
  call (doc_setFontSize 24) ;;
  titleLines <- ask (doc_splitTextToSize (title data) contentWidth) ;;
  checkNewPage (Qnat (List.length titleLines) * 12) ;;
  y0 <- get_y ;;
  call (doc_text TitleSite titleLines MARGIN y0) ;;
  add_y (Qnat (List.length titleLines) * 12 + 10) ;;
  call (doc_setTextColor defaultTextColor).

(** Lines 52-66. *)
Definition renderToc : M St unit :=
  checkNewPage 20 ;;
  call (doc_setFont FONT_NAME bold) ;;
  call (doc_setFontSize 16) ;;
  y0 <- get_y ;;
  call (doc_text TocHeadingSite ["Table of Contents"%string] MARGIN y0) ;;
  add_y 8 ;;
  call (doc_setFont FONT_NAME normal) ;;
  call (doc_setFontSize FONT_SIZE) ;;
  forEach (tableOfContents data) renderTocEntry.

(** Lines 10-15: [const doc = new jsPDF(); let y = MARGIN]. *)
Definition initial : St :=
  {| doc := newDoc; y := MARGIN; trace := [(1%nat, MARGIN)] |}.

(** Everything before [return doc.output('blob')]. *)
Definition render : M St unit :=
  renderTitle ;;
  renderToc ;;
  forEach (files data) renderFile.

End Body.

Definition generateRepoPdf (repoName : string) (data : FormattedRepoData)
  (options : PdfOptions) : Result Blob :=
  match render data options (initial) with
  | Ok (_, s) => Ok (output (doc s))
  | Thrown m => Thrown m
  end.

(* ------------------------------------------------------------------ *)
(** ** Vocabulary of the statements *)

(** Total correctness: from [s] the command returns, in a state and with a
    value that satisfy [Q]. *)
Definition wp {A : Type} (c : M St A) (Q : A -> St -> Prop) (s : St) : Prop :=
  exists a s', c s = Ok (a, s') /\ Q a s'.

(** What a run shows: the call that drew it and the text it was given. *)
Definition key (r : Run) : Site * list string := (r_site r, r_text r).

Definition lineKeys (l : HighlightedLine) : list (Site * list string) :=
  map (fun t => (TokenSite, [text t])) (tokens l).

Definition fileKeys (options : PdfOptions) (f : HighlightedFile)
  : list (Site * list string) :=
  (SeparatorSite, splitText (font options) bold 12 (separator f) contentWidth)
  :: flat_map lineKeys (lines f).

Definition tocKey (options : PdfOptions) (p : string) : Site * list string :=
  (TocEntrySite,
   splitText (font options) normal (fontSize options) p contentWidth).

(** The runs of a whole document, in reading order. *)
Definition layout (data : FormattedRepoData) (options : PdfOptions)
  : list (Site * list string) :=
  (TitleSite, splitText (font options) bold 24 (title data) contentWidth)
  :: (TocHeadingSite, ["Table of Contents"%string])
  :: map (tocKey options) (tableOfContents data)
  ++ flat_map (fileKeys options) (files data).

(** The number of times the test of line 110 fires along one line whose
    tokens have the widths [ws], starting at horizontal position [x]. *)
Fixpoint rowBreaks (ws : list Q) (x : Q) : nat :=
  match ws with
  | [] => 0%nat
  | w :: ws' => if wraps x w then S (rowBreaks ws' (MARGIN + w))
                else rowBreaks ws' (x + w)
  end.

(** One move of the cursor (page, y): down the same page, or to the top
    margin of the next page. *)
Definition cursor_step (c c' : nat * Q) : Prop :=
  (fst c' = fst c /\ snd c <= snd c') \/
  (fst c' = S (fst c) /\ snd c' == MARGIN).


(** A run sits on another row than the cursor of [s]. *)
Definition on_new_row (s : St) (r : Run) : Prop :=
  r_page r <> currentPage (doc s) \/ ~ r_y r == y s.

Definition is_site (k : Site) (r : Run) : bool :=
  match k, r_site r with
  | TitleSite, TitleSite | TocHeadingSite, TocHeadingSite
  | TocEntrySite, TocEntrySite | SeparatorSite, SeparatorSite
  | TokenSite, TokenSite => true
  | _, _ => false
  end.

(** The document after a [doc.text] call at the cursor of [s]. *)
Definition drawn (site : Site) (t : list string) (x0 : Q) (s : St) : St :=
  {| doc := add_mark (MText {| r_site := site; r_page := currentPage (doc s);
                               r_text := t; r_x := x0; r_y := y s;
                               r_color := textColor (doc s);
                               r_font := fontName (doc s);
                               r_style := fontStyle (doc s);
                               r_size := docFontSize (doc s) |}) (doc s);
     y := y s; trace := trace s |}.

(** The state after [y += d]. *)
Definition moved (d : Q) (s : St) : St :=
  {| doc := doc s; y := y s + d;
     trace := trace s ++ [(currentPage (doc s), y s + d)] |}.

(** The state after the branch of [checkNewPage] that opens a page. *)
Definition turned (options : PdfOptions) (s : St) : St :=
  let d := doc s in
  {| doc := {| currentPage := S (currentPage d); fontName := fontName d;
               fontStyle := fontStyle d; docFontSize := docFontSize d;
               textColor := textColor d;
               fillColor := if isDarkMode options then DARK_MODE_BACKGROUND
                            else fillColor d;
               marks := if isDarkMode options
                        then marks d ++ [MRect (S (currentPage d))
                                           DARK_MODE_BACKGROUND
                                           0 0 pageWidth pageHeight]
                        else marks d |};
     y := MARGIN;
     trace := trace s ++ [(S (currentPage d), MARGIN)] |}.

(** The state after [checkNewPage(h)]. *)
Definition checked (options : PdfOptions) (h : Q) (s : St) : St :=
  if Qgtb (y s + h) (pageHeight - MARGIN) then turned options s else s.

(** The state after a call that replaces the document and leaves the
    captured variables alone. *)
Definition with_doc (d : Doc) (s : St) : St :=
  {| doc := d; y := y s; trace := trace s |}.

(** Two documents that differ at most in font, colours and rectangles. *)
Definition same_sheet (d d' : Doc) : Prop :=
  currentPage d' = currentPage d /\ runs d' = runs d.

(** The state after [doc.setTextColor(c)] for a colour the document takes. *)
Definition colored (c : string) (s : St) : St :=
  with_doc {| currentPage := currentPage (doc s); fontName := fontName (doc s);
              fontStyle := fontStyle (doc s);
              docFontSize := docFontSize (doc s);
              textColor := c; fillColor := fillColor (doc s);
              marks := marks (doc s) |} s.

(** The width [doc.getTextWidth] reports for a token in state [s]. *)
Definition widthIn (s : St) (token : HighlightedToken) : Q :=
  doc_getTextWidth (text token) (doc s).

(** The value and state one run of the token callback ends in. *)
Definition placed (options : PdfOptions) (token : HighlightedToken) (x : Q)
  (s : St) : Q * St :=
  let s0 := colored (tokenColor options (color token)) s in
  let w := widthIn s token in
  if wraps x w then
    (MARGIN + w,
     drawn TokenSite [text token] MARGIN
       (checked options (LINE_HEIGHT options) (moved (LINE_HEIGHT options) s0)))
  else (x + w, drawn TokenSite [text token] x s0).

(** What the runs of a state show, in drawing order. *)
Definition keys (s : St) : list (Site * list string) :=
  map key (runs (doc s)).

(** The font [doc.setFont] and [doc.setFontSize] last selected. *)
Definition font_is (name : Font) (style : FontStyle) (size : Q) (s : St) : Prop :=
  fontName (doc s) = name /\ fontStyle (doc s) = style /\
  docFontSize (doc s) = size.

(** The texts of all tokens of a document, in reading order. *)
Definition tokenTexts (data : FormattedRepoData) : list string :=
  flat_map (fun f => flat_map (fun l => map text (tokens l)) (lines f))
           (files data).

(** Two states with the same cursor, the same runs and the same history. *)
Definition same_cursor (s s' : St) : Prop :=
  currentPage (doc s') = currentPage (doc s) /\ runs (doc s') = runs (doc s) /\
  y s' = y s /\ trace s' = trace s.



(** The history is a chain of cursor moves that ends at the cursor. *)
Definition chained (s : St) : Prop :=
  Sorted cursor_step (trace s) /\
  hd_error (trace s) = Some (1%nat, MARGIN) /\
  exists l, trace s = l ++ [(currentPage (doc s), y s)].

(** The texts of the runs drawn by the token callback, read off the keys. *)
Definition tokenKeys (ks : list (Site * list string)) : list (list string) :=
  flat_map (fun k => match fst k with TokenSite => [snd k] | _ => [] end) ks.

(** The texts of the separator runs, read off the keys. *)
Definition separatorKeys (ks : list (Site * list string)) : list (list string) :=
  flat_map (fun k => match fst k with SeparatorSite => [snd k] | _ => [] end) ks.

(** Two states whose documents have the same font selected. *)
Definition same_font (s s' : St) : Prop :=
  fontName (doc s') = fontName (doc s) /\
  fontStyle (doc s') = fontStyle (doc s) /\
  docFontSize (doc s') = docFontSize (doc s).

(** The horizontal positions of tokens of widths [ws] laid side by side
    from [x]. *)
Fixpoint offsets (x : Q) (ws : list Q) : list Q :=
  match ws with
  | [] => []
  | w :: ws' => x :: offsets (x + w) ws'
  end.

Fixpoint Qsum (ws : list Q) : Q :=
  match ws with
  | [] => 0
  | w :: ws' => w + Qsum ws'
  end.

(** The state after [addPageBackground]. *)
Definition filled (options : PdfOptions) (s : St) : St :=
  if isDarkMode options then
    with_doc {| currentPage := currentPage (doc s);
                fontName := fontName (doc s);
                fontStyle := fontStyle (doc s);
                docFontSize := docFontSize (doc s);
                textColor := textColor (doc s);
                fillColor := DARK_MODE_BACKGROUND;
                marks := marks (doc s)
                         ++ [MRect (currentPage (doc s)) DARK_MODE_BACKGROUND
                               0 0 pageWidth pageHeight] |} s
  else s.

(** The rectangle that fills page [p] with the dark background. *)
Definition background (p : nat) : Mark :=
  MRect p DARK_MODE_BACKGROUND 0 0 pageWidth pageHeight.

Fixpoint rects_of (ms : list Mark) : list Mark :=
  match ms with
  | [] => []
  | MText _ :: ms' => rects_of ms'
  | MRect p c x0 y0 w h :: ms' => MRect p c x0 y0 w h :: rects_of ms'
  end.

Fixpoint rect_pages (ms : list Mark) : list nat :=
  match ms with
  | [] => []
  | MText _ :: ms' => rect_pages ms'
  | MRect p _ _ _ _ _ :: ms' => p :: rect_pages ms'
  end.

(** Reading the marks in drawing order, every run lies on a page that was
    filled before it ([seen] holds the pages filled so far). *)
Fixpoint backed (seen : list nat) (ms : list Mark) : Prop :=
  match ms with
  | [] => True
  | MText r :: ms' => In (r_page r) seen /\ backed seen ms'
  | MRect p _ _ _ _ _ :: ms' => backed (p :: seen) ms'
  end.

(** One dark rectangle per page, in page order, each before the runs of
    its page. *)
Definition dark_filled (s : St) : Prop :=
  (1 <= currentPage (doc s))%nat /\
  rects_of (marks (doc s)) = map background (seq 1 (currentPage (doc s))) /\
  backed [] (marks (doc s)).

Definition unfilled (s : St) : Prop := rects_of (marks (doc s)) = [].

(** The runs are in page order, on pages that exist. *)
Definition paged (s : St) : Prop :=
  (1 <= currentPage (doc s))%nat /\
  StronglySorted le (map r_page (runs (doc s))) /\
  Forall (fun r => (1 <= r_page r <= currentPage (doc s))%nat) (runs (doc s)).

(** What a run looks like, its place on the page apart: the call that drew
    it, its text, its colour, its font, and for a run that is not a token
    its horizontal position. *)
Definition Look : Type :=
  (Site * list string * string * Font * FontStyle * Q * option Q)%type.

Definition look (r : Run) : Look :=
  (r_site r, r_text r, r_color r, r_font r, r_style r, r_size r,
   match r_site r with TokenSite => None | _ => Some (r_x r) end).

Definition looks (s : St) : list Look := map look (runs (doc s)).

Definition look_color (l : Look) : string :=
  match l with (_, _, c, _, _, _, _) => c end.

Definition tokenLook (options : PdfOptions) (t : HighlightedToken) : Look :=
  (TokenSite, [text t], tokenColor options (color t),
   font options, normal, fontSize options, None).

Definition lineLooks (options : PdfOptions) (l : HighlightedLine) : list Look :=
  map (tokenLook options) (tokens l).

Definition fileLooks (options : PdfOptions) (f : HighlightedFile) : list Look :=
  (SeparatorSite,
   splitText (font options) bold 12 (separator f) contentWidth,
   defaultTextColor options, font options, bold, 12, Some MARGIN)
  :: flat_map (lineLooks options) (lines f).

Definition tocLook (options : PdfOptions) (p : string) : Look :=
  (TocEntrySite,
   splitText (font options) normal (fontSize options) p contentWidth,
   defaultTextColor options, font options, normal, fontSize options,
   Some MARGIN).

(** The looks of the runs of a whole document, in reading order. *)
Definition styledLayout (data : FormattedRepoData) (options : PdfOptions)
  : list Look :=
  (TitleSite, splitText (font options) bold 24 (title data) contentWidth,
   defaultTextColor options, font options, bold, 24, Some MARGIN)
  :: (TocHeadingSite, ["Table of Contents"%string],
      defaultTextColor options, font options, bold, 16, Some MARGIN)
  :: map (tocLook options) (tableOfContents data)
  ++ flat_map (fileLooks options) (files data).

(** Where a run is and what it says, its colour apart. *)
Definition place (r : Run)
  : Site * nat * list string * Q * Q * Font * FontStyle * Q :=
  (r_site r, r_page r, r_text r, r_x r, r_y r, r_font r, r_style r, r_size r).

(** The options with another theme. *)
Definition withTheme (t : Theme) (options : PdfOptions) : PdfOptions :=
  {| font := font options; fontSize := fontSize options;
     lineSpacing := lineSpacing options; theme := t |}.

(** Two states that agree on everything but colours and rectangles. *)
Definition same_layout (s1 s2 : St) : Prop :=
  currentPage (doc s1) = currentPage (doc s2) /\
  fontName (doc s1) = fontName (doc s2) /\
  fontStyle (doc s1) = fontStyle (doc s2) /\
  docFontSize (doc s1) = docFontSize (doc s2) /\
  map place (runs (doc s1)) = map place (runs (doc s2)) /\
  y s1 = y s2 /\ trace s1 = trace s2.

(** The states after [doc.setFont] and [doc.setFontSize]. *)
Definition fonted (name : Font) (style : FontStyle) (s : St) : St :=
  with_doc {| currentPage := currentPage (doc s); fontName := name;
              fontStyle := style; docFontSize := docFontSize (doc s);
              textColor := textColor (doc s); fillColor := fillColor (doc s);
              marks := marks (doc s) |} s.

Definition sized (size : Q) (s : St) : St :=
  with_doc {| currentPage := currentPage (doc s); fontName := fontName (doc s);
              fontStyle := fontStyle (doc s); docFontSize := size;
              textColor := textColor (doc s); fillColor := fillColor (doc s);
              marks := marks (doc s) |} s.

(** Two commands return, from [s1] and from [s2], with values and in states
    that satisfy [Q]. *)
Definition wp2 {A B : Type} (c1 : M St A) (c2 : M St B)
  (Q : A -> St -> B -> St -> Prop) (s1 s2 : St) : Prop :=
  exists a1 s1' a2 s2',
    c1 s1 = Ok (a1, s1') /\ c2 s2 = Ok (a2, s2') /\ Q a1 s1' a2 s2'.

(* ------------------------------------------------------------------ *)
(** ** Arithmetic *)

Lemma Qgtb_true (a b : Q) : Qgtb a b = true <-> b < a.
Proof.
  unfold Qgtb. rewrite negb_true_iff, <- not_true_iff_false, Qle_bool_iff.
  split; intro H; [apply Qnot_le_lt | apply Qlt_not_le]; exact H.
Qed.

Lemma Qgtb_false (a b : Q) : Qgtb a b = false <-> a <= b.
Proof.
  unfold Qgtb. rewrite negb_false_iff. apply Qle_bool_iff.
Qed.

Lemma Qnat_nonneg (n : nat) : 0 <= Qnat n.
Proof.
  unfold Qnat, Qle; simpl. lia.
Qed.

Lemma Qnat_S (n : nat) : Qnat (S n) == Qnat n + 1.
Proof.
  unfold Qnat. rewrite Nat2Z.inj_succ, <- Z.add_1_r, inject_Z_plus. reflexivity.
Qed.

Lemma LINE_HEIGHT_pos (options : PdfOptions) :
  0 < fontSize options -> 0 < lineSpacing options -> 0 < LINE_HEIGHT options.
Proof.
  intros Hf Hl. unfold LINE_HEIGHT, FONT_SIZE.
  apply Qmult_lt_0_compat; [apply Qmult_lt_0_compat|]; try assumption.
  reflexivity.
Qed.

(* ------------------------------------------------------------------ *)
(** ** Rules of the total-correctness predicate *)

Lemma wp_ret {A : Type} (a : A) (Q : A -> St -> Prop) (s : St) :
  Q a s -> wp (ret a) Q s.
Proof.
  intro H. exists a, s. split; [reflexivity | exact H].
Qed.

Lemma wp_bind {A B : Type} (c : M St A) (k : A -> M St B)
  (Q : B -> St -> Prop) (s : St) :
  wp c (fun a s' => wp (k a) Q s') s -> wp (bind c k) Q s.
Proof.
  intros (a & s' & Hc & b & s'' & Hk & HQ).
  exists b, s''. unfold bind. rewrite Hc. split; assumption.
Qed.

Lemma wp_mono {A : Type} (c : M St A) (Q Q' : A -> St -> Prop) (s : St) :
  wp c Q s -> (forall a s', Q a s' -> Q' a s') -> wp c Q' s.
Proof.
  intros (a & s' & Hc & HQ) Himp. exists a, s'. split; auto.
Qed.

Lemma wp_get_y (Q : Q -> St -> Prop) (s : St) : Q (y s) s -> wp get_y Q s.
Proof.
  intro H. exists (y s), s. split; [reflexivity | exact H].
Qed.

Lemma wp_ask {A : Type} (f : Doc -> A) (Q : A -> St -> Prop) (s : St) :
  Q (f (doc s)) s -> wp (ask f) Q s.
Proof.
  intro H. exists (f (doc s)), s. split; [reflexivity | exact H].
Qed.

Lemma wp_add_y (d : Q) (Q : unit -> St -> Prop) (s : St) :
  Q tt (moved d s) -> wp (add_y d) Q s.
Proof.
  intro H. exists tt, (moved d s). split; [reflexivity | exact H].
Qed.

Lemma wp_call (f : Doc -> Result Doc) (d : Doc) (Q : unit -> St -> Prop) (s : St) :
  f (doc s) = Ok d ->
  Q tt {| doc := d; y := y s; trace := trace s |} ->
  wp (call f) Q s.
Proof.
  intros Hf H. eexists tt, _. unfold call. rewrite Hf. split; [reflexivity | exact H].
Qed.

Lemma wp_text (site : Site) (t : list string) (x0 y0 : Q)
  (Q : unit -> St -> Prop) (s : St) :
  y0 = y s ->
  Q tt (drawn site t x0 s) -> wp (call (doc_text site t x0 y0)) Q s.
Proof.
  intros -> H. eapply wp_call; [reflexivity | exact H].
Qed.

Lemma wp_forEach {A : Type} (I : St -> Prop) (f : A -> M St unit) (l : list A) :
  (forall a s, In a l -> I s -> wp (f a) (fun _ => I) s) ->
  forall s, I s -> wp (forEach l f) (fun _ => I) s.
Proof.
  induction l as [|a l IH]; intros Hf s Hs; simpl.
  - apply wp_ret. exact Hs.
  - apply wp_bind. eapply wp_mono.
    + apply Hf; [left; reflexivity | exact Hs].
    + intros u s' Hs'. apply IH; [|exact Hs'].
      intros b s0 Hb. apply Hf. right. exact Hb.
Qed.

Lemma wp_forEachWith {A V : Type} (I : V -> St -> Prop) (f : A -> V -> M St V)
  (l : list A) :
  (forall a v s, In a l -> I v s -> wp (f a v) I s) ->
  forall v s, I v s -> wp (forEachWith l f v) I s.
Proof.
  induction l as [|a l IH]; intros Hf v s Hs; simpl.
  - apply wp_ret. exact Hs.
  - apply wp_bind. eapply wp_mono.
    + apply Hf; [left; reflexivity | exact Hs].
    + intros v' s' Hs'. apply IH; [|exact Hs'].
      intros b v0 s0 Hb. apply Hf. right. exact Hb.
Qed.

(* ------------------------------------------------------------------ *)
(** ** Colours *)

Lemma defaultTextColor_hex (options : PdfOptions) :
  is_hex_color (defaultTextColor options) = true.
Proof.
  unfold defaultTextColor. destruct (isDarkMode options); reflexivity.
Qed.

Lemma tokenColor_hex (options : PdfOptions) (c : string) :
  is_hex_color (tokenColor options c) = true.
Proof.
  unfold tokenColor. cbv zeta.
  match goal with
  | |- context [if is_hex_color ?c1 then _ else _] =>
      destruct (is_hex_color c1) eqn:E
  end.
  - exact E.
  - apply defaultTextColor_hex.
Qed.

Lemma isDarkMode_dark (options : PdfOptions) :
  theme options = dark -> isDarkMode options = true.
Proof.
  unfold isDarkMode. intros ->. reflexivity.
Qed.

Lemma isDarkMode_light (options : PdfOptions) :
  theme options = light -> isDarkMode options = false.
Proof.
  unfold isDarkMode. intros ->. reflexivity.
Qed.

Lemma tokenColor_invalid (options : PdfOptions) (c : string) :
  is_hex_color c = false -> tokenColor options c = defaultTextColor options.
Proof.
  intro Hc. unfold tokenColor, defaultTextColor. cbv zeta.
  destruct (isDarkMode options); simpl.
  - destruct (String.eqb c "#000000" || String.eqb c "black"); [reflexivity|].
    rewrite Hc. reflexivity.
  - destruct (String.eqb c "#FFFFFF" || String.eqb c "white"); [reflexivity|].
    rewrite Hc. reflexivity.
Qed.

Lemma tokenColor_dark_black (options : PdfOptions) (c : string) :
  theme options = dark -> c = "#000000"%string \/ c = "black"%string ->
  tokenColor options c = DARK_MODE_TEXT.
Proof.
  intros Ht Hc. unfold tokenColor. rewrite (isDarkMode_dark _ Ht).
  destruct Hc as [-> | ->]; reflexivity.
Qed.

Lemma tokenColor_light_white (options : PdfOptions) (c : string) :
  theme options = light -> c = "#FFFFFF"%string \/ c = "white"%string ->
  tokenColor options c = LIGHT_MODE_TEXT.
Proof.
  intros Ht Hc. unfold tokenColor. rewrite (isDarkMode_light _ Ht).
  destruct Hc as [-> | ->]; reflexivity.
Qed.

Lemma tokenColor_other (options : PdfOptions) (c : string) :
  is_hex_color c = true ->
  ~ (theme options = dark /\ c = "#000000"%string) ->
  ~ (theme options = light /\ c = "#FFFFFF"%string) ->
  tokenColor options c = c.
Proof.
  intros Hc Hd Hl. unfold tokenColor, isDarkMode in *. cbv zeta.
  destruct (theme options); simpl.
  - destruct (String.eqb_spec c "#FFFFFF") as [E|_].
    { exfalso. apply Hl. split; [reflexivity | exact E]. }
    destruct (String.eqb_spec c "white") as [E|_].
    { subst c. discriminate Hc. }
    simpl. rewrite Hc. reflexivity.
  - destruct (String.eqb_spec c "#000000") as [E|_].
    { exfalso. apply Hd. split; [reflexivity | exact E]. }
    destruct (String.eqb_spec c "black") as [E|_].
    { subst c. discriminate Hc. }
    simpl. rewrite Hc. reflexivity.
Qed.

(* ------------------------------------------------------------------ *)
(** ** The document object takes every six-digit hexadecimal colour *)

Hypothesis accepts_hex :
  forall c : string, is_hex_color c = true -> acceptsColor c = true.

Lemma wp_setTextColor (c : string) (Q : unit -> St -> Prop) (s : St) :
  is_hex_color c = true ->
  Q tt (with_doc {| currentPage := currentPage (doc s);
                    fontName := fontName (doc s);
                    fontStyle := fontStyle (doc s);
                    docFontSize := docFontSize (doc s);
                    textColor := c; fillColor := fillColor (doc s);
                    marks := marks (doc s) |} s) ->
  wp (call (doc_setTextColor c)) Q s.
Proof.
  intros Hc H. eapply wp_call; [|exact H].
  unfold doc_setTextColor. rewrite (accepts_hex _ Hc). reflexivity.
Qed.

Lemma wp_setFont (name : Font) (style : FontStyle)
  (Q : unit -> St -> Prop) (s : St) :
  Q tt (with_doc {| currentPage := currentPage (doc s);
                    fontName := name; fontStyle := style;
                    docFontSize := docFontSize (doc s);
                    textColor := textColor (doc s);
                    fillColor := fillColor (doc s);
                    marks := marks (doc s) |} s) ->
  wp (call (doc_setFont name style)) Q s.
Proof.
  intro H. eapply wp_call; [reflexivity | exact H].
Qed.

Lemma wp_setFontSize (size : Q) (Q : unit -> St -> Prop) (s : St) :
  Q tt (with_doc {| currentPage := currentPage (doc s);
                    fontName := fontName (doc s);
                    fontStyle := fontStyle (doc s);
                    docFontSize := size;
                    textColor := textColor (doc s);
                    fillColor := fillColor (doc s);
                    marks := marks (doc s) |} s) ->
  wp (call (doc_setFontSize size)) Q s.
Proof.
  intro H. eapply wp_call; [reflexivity | exact H].
Qed.

Lemma checkNewPage_eq (options : PdfOptions) (h : Q) (s : St) :
  checkNewPage options h s = Ok (tt, checked options h s).
Proof.
  unfold checkNewPage, checked, bind, get_y.
  destruct (Qgtb (y s + h) (pageHeight - MARGIN)); [|reflexivity].
  unfold addPageBackground, turned, call, doc_addPage, set_y, bind.
  destruct (isDarkMode options); simpl; [|reflexivity].
  unfold doc_setFillColor. rewrite (accepts_hex DARK_MODE_BACKGROUND eq_refl).
  reflexivity.
Qed.

Lemma wp_checkNewPage (options : PdfOptions) (h : Q)
  (Q : unit -> St -> Prop) (s : St) :
  Q tt (checked options h s) -> wp (checkNewPage options h) Q s.
Proof.
  intro H. exists tt, (checked options h s).
  split; [apply checkNewPage_eq | exact H].
Qed.

Lemma wp_addPageBackground (options : PdfOptions)
  (Q : unit -> St -> Prop) (s : St) :
  (forall d, same_sheet (doc s) d -> fontName d = fontName (doc s) ->
             fontStyle d = fontStyle (doc s) ->
             docFontSize d = docFontSize (doc s) -> Q tt (with_doc d s)) ->
  wp (addPageBackground options) Q s.
Proof.
  intro H. unfold addPageBackground. destruct (isDarkMode options).
  - apply wp_bind. eapply wp_call.
    { unfold doc_setFillColor.
      rewrite (accepts_hex DARK_MODE_BACKGROUND eq_refl). reflexivity. }
    eapply wp_call; [reflexivity|]. simpl.
    apply (H (add_mark _ _)); try reflexivity.
    split; [reflexivity|]. unfold runs, add_mark; simpl.
    induction (marks (doc s)) as [|[r|] ms IH]; simpl; congruence.
  - apply wp_ret. destruct s as [d y0 tr]. apply (H d); try reflexivity.
    split; reflexivity.
Qed.

(* ------------------------------------------------------------------ *)
(** ** Page breaks *)

Lemma runs_of_app (a b : list Mark) : runs_of (a ++ b) = runs_of a ++ runs_of b.
Proof.
  induction a as [|[r|] a IH]; simpl; congruence.
Qed.

Lemma checked_cases (options : PdfOptions) (h : Q) (s : St) :
  (y s + h <= pageHeight - MARGIN /\ checked options h s = s) \/
  (pageHeight - MARGIN < y s + h /\ checked options h s = turned options s).
Proof.
  unfold checked. destruct (Qgtb (y s + h) (pageHeight - MARGIN)) eqn:E.
  - right. split; [apply Qgtb_true; exact E | reflexivity].
  - left. split; [apply Qgtb_false; exact E | reflexivity].
Qed.

Lemma turned_runs (options : PdfOptions) (s : St) :
  runs (doc (turned options s)) = runs (doc s).
Proof.
  unfold turned, runs; simpl. destruct (isDarkMode options); [|reflexivity].
  rewrite runs_of_app. simpl. apply app_nil_r.
Qed.

Lemma checked_runs (options : PdfOptions) (h : Q) (s : St) :
  runs (doc (checked options h s)) = runs (doc s).
Proof.
  destruct (checked_cases options h s) as [[_ ->] | [_ ->]];
    [reflexivity | apply turned_runs].
Qed.

Lemma checked_font (options : PdfOptions) (h : Q) (s : St) :
  fontName (doc (checked options h s)) = fontName (doc s) /\
  fontStyle (doc (checked options h s)) = fontStyle (doc s) /\
  docFontSize (doc (checked options h s)) = docFontSize (doc s) /\
  textColor (doc (checked options h s)) = textColor (doc s).
Proof.
  destruct (checked_cases options h s) as [[_ ->] | [_ ->]]; repeat split.
Qed.

Lemma drawn_runs (site : Site) (t : list string) (x0 : Q) (s : St) :
  runs (doc (drawn site t x0 s)) =
  runs (doc s) ++ [ {| r_site := site; r_page := currentPage (doc s);
                       r_text := t; r_x := x0; r_y := y s;
                       r_color := textColor (doc s);
                       r_font := fontName (doc s);
                       r_style := fontStyle (doc s);
                       r_size := docFontSize (doc s) |} ].
Proof.
  unfold drawn, runs; simpl. rewrite runs_of_app. reflexivity.
Qed.

(* ------------------------------------------------------------------ *)
(** ** One token *)

Lemma renderToken_eq (options : PdfOptions) (token : HighlightedToken)
  (x : Q) (s : St) :
  renderToken options token x s = Ok (placed options token x s).
Proof.
  unfold renderToken, placed, bind, call, ask, doc_setTextColor, widthIn.
  rewrite (accepts_hex _ (tokenColor_hex options (color token))).
  cbn [doc doc_getTextWidth fontName fontStyle docFontSize].
  destruct (wraps x _); [|reflexivity].
  unfold add_y, bind, get_y, set_y. rewrite checkNewPage_eq. reflexivity.
Qed.

Lemma wraps_true (x w : Q) :
  wraps x w = true <-> MARGIN < x /\ pageWidth - MARGIN < x + w.
Proof.
  unfold wraps. rewrite andb_true_iff, !Qgtb_true. reflexivity.
Qed.

(** C1.  The token callback moves a token to a new visual row exactly when
    the horizontal position is strictly right of the left margin and the
    position plus the measured width is strictly beyond the right margin.
    A token that ends exactly on the right margin stays on its row, and a
    token met at the left margin is drawn there without a row change.
    (Line height is positive, so that a new row is a different position.) *)
Theorem renderToken_wraps_iff (options : PdfOptions) (token : HighlightedToken)
  (x : Q) (s : St) :
  0 < fontSize options -> 0 < lineSpacing options ->
  exists x' s' r,
    renderToken options token x s = Ok (x', s') /\
    runs (doc s') = runs (doc s) ++ [r] /\
    r_text r = [text token] /\
    (on_new_row s r <->
     MARGIN < x /\ pageWidth - MARGIN < x + widthIn s token) /\
    (on_new_row s r -> r_x r = MARGIN) /\
    (~ on_new_row s r -> r_x r = x) /\
    (x + widthIn s token == pageWidth - MARGIN -> ~ on_new_row s r) /\
    (x == MARGIN -> ~ on_new_row s r /\ r_x r == MARGIN).
Proof.
  intros Hf Hl. pose proof (LINE_HEIGHT_pos options Hf Hl) as HL.
  rewrite renderToken_eq. unfold placed.
  destruct (wraps x (widthIn s token)) eqn:W.
  - apply wraps_true in W. destruct W as [W1 W2].
    set (s0 := colored (tokenColor options (color token)) s).
    set (s1 := checked options (LINE_HEIGHT options)
                 (moved (LINE_HEIGHT options) s0)).
    assert (Hnew : forall x0, on_new_row s
              {| r_site := TokenSite; r_page := currentPage (doc s1);
                 r_text := [text token]; r_x := x0; r_y := y s1;
                 r_color := textColor (doc s1); r_font := fontName (doc s1);
                 r_style := fontStyle (doc s1);
                 r_size := docFontSize (doc s1) |}).
    { intro x0. unfold on_new_row; simpl. subst s1.
      destruct (checked_cases options (LINE_HEIGHT options)
                  (moved (LINE_HEIGHT options) s0)) as [[_ ->] | [_ ->]]; simpl.
      - right. intro E. lra.
      - left. lia. }
    eexists _, _, _. split; [reflexivity|]. split.
    { rewrite drawn_runs. fold s0 s1. subst s1. rewrite checked_runs.
      reflexivity. }
    simpl. split; [reflexivity|]. split; [|split; [|split; [|split]]].
    + split; [intros _; split; assumption | intros _; apply Hnew].
    + reflexivity.
    + intro Hn. exfalso. apply Hn, Hnew.
    + intro E. exfalso. lra.
    + intro E. exfalso. lra.
  - assert (Hno : ~ (MARGIN < x /\ pageWidth - MARGIN < x + widthIn s token)).
    { rewrite <- wraps_true, W. discriminate. }
    set (s0 := colored (tokenColor options (color token)) s).
    assert (Hold : forall x0, ~ on_new_row s
              {| r_site := TokenSite; r_page := currentPage (doc s0);
                 r_text := [text token]; r_x := x0; r_y := y s0;
                 r_color := textColor (doc s0); r_font := fontName (doc s0);
                 r_style := fontStyle (doc s0);
                 r_size := docFontSize (doc s0) |}).
    { intros x0 [Hp | Hy]; simpl in *; [apply Hp | apply Hy]; reflexivity. }
    eexists _, _, _. split; [reflexivity|]. split.
    { rewrite drawn_runs. reflexivity. }
    simpl. split; [reflexivity|]. split; [|split; [|split; [|split]]].
    + split; [intro Hn; exfalso; exact (Hold _ Hn) | intro H; exfalso; auto].
    + intro Hn. exfalso. exact (Hold _ Hn).
    + reflexivity.
    + intros _. apply Hold.
    + intro E. split; [apply Hold | exact E].
Qed.

(* ------------------------------------------------------------------ *)
(** ** Symbolic execution of straight-line code *)

Ltac tidy :=
  unfold with_doc, moved, drawn, colored, add_mark, doc_splitTextToSize,
    doc_getTextWidth;
  cbn [doc y trace currentPage fontName fontStyle docFontSize textColor
       fillColor marks].

(** Keeps the state as a stack of [with_doc], [moved], [drawn], [checked]. *)
Ltac tidy_stack :=
  cbn [with_doc moved drawn colored add_mark doc y trace currentPage fontName
       fontStyle docFontSize textColor fillColor marks].

Ltac wp_core :=
  cbv beta;
  lazymatch goal with
  | |- wp (bind _ _) _ _ => apply wp_bind
  | |- wp (ret _) _ _ => apply wp_ret
  | |- wp get_y _ _ => apply wp_get_y
  | |- wp (ask _) _ _ => apply wp_ask
  | |- wp (add_y _) _ _ => apply wp_add_y
  | |- wp (call (doc_text _ _ _ _)) _ _ => apply wp_text; [reflexivity|]
  | |- wp (call (doc_setFont _ _)) _ _ => apply wp_setFont
  | |- wp (call (doc_setFontSize _)) _ _ => apply wp_setFontSize
  | |- wp (call (doc_setTextColor (defaultTextColor _))) _ _ =>
      apply wp_setTextColor; [apply defaultTextColor_hex|]
  | |- wp (call (doc_setTextColor (tokenColor _ _))) _ _ =>
      apply wp_setTextColor; [apply tokenColor_hex|]
  | |- wp (checkNewPage _ _) _ _ => apply wp_checkNewPage
  end.

Ltac wp_step := wp_core; tidy.

Ltac wp_stack := repeat (wp_core; tidy_stack); cbv beta.

Ltac wp_run := repeat wp_step; cbv beta.

(* ------------------------------------------------------------------ *)
(** ** What is drawn, and in which order *)

Lemma keys_drawn (site : Site) (t : list string) (x0 : Q) (s : St) :
  keys (drawn site t x0 s) = keys s ++ [(site, t)].
Proof.
  unfold keys. rewrite drawn_runs, map_app. reflexivity.
Qed.

Lemma keys_checked (options : PdfOptions) (h : Q) (s : St) :
  keys (checked options h s) = keys s.
Proof.
  unfold keys. rewrite checked_runs. reflexivity.
Qed.

Lemma font_is_checked (options : PdfOptions) (h : Q) (s : St)
  (name : Font) (style : FontStyle) (size : Q) :
  font_is name style size (checked options h s) <-> font_is name style size s.
Proof.
  unfold font_is.
  destruct (checked_font options h s) as (-> & -> & -> & _). reflexivity.
Qed.

Lemma wp_forEach_keys {A : Type} (P : St -> Prop)
  (e : A -> list (Site * list string)) (f : A -> M St unit) (l : list A) :
  (forall a s, P s ->
     wp (f a) (fun _ s' => P s' /\ keys s' = keys s ++ e a) s) ->
  forall s, P s ->
    wp (forEach l f) (fun _ s' => P s' /\ keys s' = keys s ++ flat_map e l) s.
Proof.
  intro Hf. induction l as [|a l IH]; intros s Hs; simpl.
  - apply wp_ret. split; [exact Hs | symmetry; apply app_nil_r].
  - apply wp_bind. eapply wp_mono; [apply Hf; exact Hs|].
    intros u s1 [H1 K1]. eapply wp_mono; [apply IH; exact H1|].
    intros u' s2 [H2 K2]. split; [exact H2|].
    rewrite K2, K1, app_assoc. reflexivity.
Qed.

Lemma placed_keys (options : PdfOptions) (token : HighlightedToken)
  (x : Q) (s : St) :
  keys (snd (placed options token x s)) = keys s ++ [(TokenSite, [text token])].
Proof.
  unfold placed. destruct (wraps x _); simpl; rewrite keys_drawn;
    [rewrite keys_checked|]; reflexivity.
Qed.

Lemma tokens_keys (options : PdfOptions) (ts : list HighlightedToken) :
  forall (x : Q) (s : St),
    wp (forEachWith ts (renderToken options) x)
       (fun _ s' => keys s' = keys s ++ map (fun t => (TokenSite, [text t])) ts) s.
Proof.
  induction ts as [|t ts IH]; intros x s; simpl.
  - apply wp_ret. symmetry. apply app_nil_r.
  - apply wp_bind. exists (fst (placed options t x s)), (snd (placed options t x s)).
    split; [rewrite renderToken_eq; destruct (placed options t x s); reflexivity|].
    eapply wp_mono; [apply IH|]. cbv beta. intros x' s' K.
    rewrite K, placed_keys, <- app_assoc. reflexivity.
Qed.

Lemma checked_marks_runs (options : PdfOptions) (h : Q) (s : St) :
  runs_of (marks (doc (checked options h s))) = runs_of (marks (doc s)).
Proof.
  exact (checked_runs options h s).
Qed.

Ltac keys_simp :=
  unfold keys, runs in *; cbn [doc marks] in *;
  rewrite ?runs_of_app, ?map_app, ?checked_marks_runs;
  cbn [runs_of map key r_site r_text doc marks].

Lemma renderLine_keys (options : PdfOptions) (line : HighlightedLine) (s : St) :
  wp (renderLine options line) (fun _ s' => keys s' = keys s ++ lineKeys line) s.
Proof.
  unfold renderLine, lineKeys. wp_run.
  destruct (tokens line) as [|t ts] eqn:E; cbn [List.length Nat.eqb].
  - wp_run. simpl. rewrite app_nil_r. apply keys_checked.
  - apply wp_bind. eapply wp_mono; [apply tokens_keys|].
    cbv beta. intros x' s' K. wp_run.
    rewrite keys_checked in K. keys_simp. exact K.
Qed.

Lemma renderFile_keys (options : PdfOptions) (file : HighlightedFile) (s : St) :
  wp (renderFile options file)
     (fun _ s' => keys s' = keys s ++ fileKeys options file) s.
Proof.
  unfold renderFile. wp_run.
  match goal with |- wp _ _ ?s1 => set (s2 := s1) end.
  eapply wp_mono.
  - apply (wp_forEach_keys (fun _ => True) lineKeys) with (s := s2); [|exact I].
    intros l s0 _. eapply wp_mono; [apply renderLine_keys|].
    intros u s' K. split; [exact I | exact K].
  - cbv beta. intros u s' [_ K]. rewrite K. subst s2.
    unfold fileKeys. keys_simp. rewrite <- app_assoc. reflexivity.
Qed.

Lemma renderTocEntry_keys (options : PdfOptions) (p : string) (s : St) :
  font_is (font options) normal (fontSize options) s ->
  wp (renderTocEntry options p)
     (fun _ s' => font_is (font options) normal (fontSize options) s' /\
                  keys s' = keys s ++ [tocKey options p]) s.
Proof.
  intros (Hn & Hs & Hz). unfold renderTocEntry. wp_run.
  rewrite Hn, Hs, Hz. split.
  - unfold font_is; cbn [doc fontName fontStyle docFontSize].
    destruct (checked_font options
                (Qnat (Datatypes.length
                   (splitText (font options) normal (fontSize options) p
                      contentWidth)) * LINE_HEIGHT options) s)
      as (-> & -> & -> & _).
    repeat split; assumption.
  - keys_simp. reflexivity.
Qed.

Lemma flat_map_singleton {A B : Type} (f : A -> B) (l : list A) :
  flat_map (fun a => [f a]) l = map f l.
Proof.
  induction l as [|a l IH]; simpl; congruence.
Qed.

Lemma renderToc_keys (data : FormattedRepoData) (options : PdfOptions) (s : St) :
  wp (renderToc data options)
     (fun _ s' => keys s' = keys s ++ (TocHeadingSite, ["Table of Contents"%string])
                                   :: map (tocKey options) (tableOfContents data)) s.
Proof.
  unfold renderToc. wp_run.
  match goal with |- wp _ _ ?s1 => set (s2 := s1) end.
  eapply wp_mono.
  - apply (wp_forEach_keys (font_is (font options) normal (fontSize options))
             (fun p => [tocKey options p])) with (s := s2).
    + intros p s0 H0. apply renderTocEntry_keys. exact H0.
    + subst s2. repeat split.
  - cbv beta. intros u s' [_ K]. rewrite K. subst s2.
    keys_simp. rewrite <- app_assoc, flat_map_singleton. reflexivity.
Qed.

Lemma renderTitle_keys (data : FormattedRepoData) (options : PdfOptions) (s : St) :
  wp (renderTitle data options)
     (fun _ s' => keys s' = keys s ++
        [(TitleSite, splitText (font options) bold 24 (title data) contentWidth)]) s.
Proof.
  unfold renderTitle. apply wp_bind. apply wp_addPageBackground.
  intros d [Hp Hr] Hn Hs Hz. wp_run. keys_simp.
  rewrite Hr. reflexivity.
Qed.

Lemma render_layout (data : FormattedRepoData) (options : PdfOptions) :
  wp (render data options) (fun _ s' => keys s' = layout data options) initial.
Proof.
  unfold render. apply wp_bind. eapply wp_mono; [apply renderTitle_keys|].
  cbv beta. intros u s1 K1. apply wp_bind.
  eapply wp_mono; [apply renderToc_keys|].
  cbv beta. intros u2 s2 K2. eapply wp_mono.
  - apply (wp_forEach_keys (fun _ => True) (fileKeys options)) with (s := s2);
      [|exact I].
    intros f s0 _. eapply wp_mono; [apply renderFile_keys|].
    intros u3 s' K. split; [exact I | exact K].
  - cbv beta. intros u3 s3 [_ K3]. rewrite K3, K2, K1. unfold layout.
    cbn [keys initial doc newDoc runs marks runs_of map app]. reflexivity.
Qed.

(* ------------------------------------------------------------------ *)
(** ** Invariants of the cursor

    A property [I] of the state that survives cursor-neutral calls, survives
    [y += d] for [d >= 0], is strengthened to [J] by [checkNewPage], while [J]
    survives a [doc.text] at the cursor, holds throughout the render. *)

Section Preservation.

Variable options : PdfOptions.
Variables I J : St -> Prop.

Hypothesis line_height_nonneg : 0 <= LINE_HEIGHT options.
Hypothesis J_I : forall s, J s -> I s.
Hypothesis I_same : forall s s', same_cursor s s' -> I s -> I s'.
Hypothesis J_same : forall s s', same_cursor s s' -> J s -> J s'.
Hypothesis I_moved : forall s d, 0 <= d -> I s -> I (moved d s).
Hypothesis J_checked : forall s h, 0 <= h -> I s -> J (checked options h s).
Hypothesis J_drawn : forall s site t x0, J s -> J (drawn site t x0 s).

Lemma same_cursor_with_doc (d : Doc) (s : St) :
  currentPage d = currentPage (doc s) -> runs d = runs (doc s) ->
  same_cursor s (with_doc d s).
Proof.
  intros Hp Hr. repeat split; assumption.
Qed.

Ltac nonneg :=
  first [ exact line_height_nonneg
        | apply Qnat_nonneg
        | apply Qmult_le_0_compat; nonneg
        | match goal with |- 0 <= ?a + ?b =>
            let Ha := fresh in let Hb := fresh in
            assert (Ha : 0 <= a) by nonneg;
            assert (Hb : 0 <= b) by nonneg; lra end
        | lra ].

Ltac peel :=
  repeat first
    [ assumption
    | match goal with
      | |- I (with_doc _ ?s) =>
          apply (I_same s); [apply same_cursor_with_doc; reflexivity|]
      | |- J (with_doc _ ?s) =>
          apply (J_same s); [apply same_cursor_with_doc; reflexivity|]
      | |- I (colored _ ?s) =>
          apply (I_same s); [apply same_cursor_with_doc; reflexivity|]
      | |- J (colored _ ?s) =>
          apply (J_same s); [apply same_cursor_with_doc; reflexivity|]
      | |- I (moved _ _) => apply I_moved; [nonneg|]
      | |- J (drawn _ _ _ _) => apply J_drawn
      | |- J (checked _ _ _) => apply J_checked; [nonneg|]
      | |- I (drawn _ _ _ _) => apply J_I
      | |- I (checked _ _ _) => apply J_I
      | |- I _ => apply J_I; assumption
      end ].

Lemma placed_preserves (token : HighlightedToken) (x : Q) (s : St) :
  J s -> J (snd (placed options token x s)).
Proof.
  intro H. unfold placed. destruct (wraps x _); cbn [snd]; peel.
Qed.

Lemma tokens_preserve (ts : list HighlightedToken) :
  forall (x : Q) (s : St),
    J s -> wp (forEachWith ts (renderToken options) x) (fun _ => J) s.
Proof.
  induction ts as [|t ts IH]; intros x s H; simpl.
  - apply wp_ret. exact H.
  - apply wp_bind.
    exists (fst (placed options t x s)), (snd (placed options t x s)).
    split; [rewrite renderToken_eq; destruct (placed options t x s); reflexivity|].
    apply IH. apply placed_preserves. exact H.
Qed.

Lemma renderLine_preserves (line : HighlightedLine) (s : St) :
  I s -> wp (renderLine options line) (fun _ => I) s.
Proof.
  intro H. unfold renderLine. wp_stack.
  destruct (tokens line) as [|t ts]; cbn [List.length Nat.eqb].
  - wp_stack. peel.
  - apply wp_bind. eapply wp_mono.
    + apply tokens_preserve. peel.
    + cbv beta. intros x' s' H'. wp_stack. peel.
Qed.

Lemma renderFile_preserves (file : HighlightedFile) (s : St) :
  I s -> wp (renderFile options file) (fun _ => I) s.
Proof.
  intro H. unfold renderFile. wp_stack.
  apply wp_forEach.
  - intros l s0 _ H0. apply renderLine_preserves. exact H0.
  - peel.
Qed.

Lemma renderTocEntry_preserves (p : string) (s : St) :
  I s -> wp (renderTocEntry options p) (fun _ => I) s.
Proof.
  intro H. unfold renderTocEntry. wp_stack. peel.
Qed.

Lemma render_preserves (data : FormattedRepoData) (s : St) :
  I s -> wp (render data options) (fun _ => I) s.
Proof.
  intro H. unfold render, renderTitle, renderToc.
  apply wp_bind. apply wp_bind. apply wp_addPageBackground.
  intros d [Hp Hr] _ _ _.
  assert (H1 : I (with_doc d s)).
  { apply (I_same s); [apply same_cursor_with_doc; assumption | exact H]. }
  wp_stack. eapply wp_mono.
  - apply wp_forEach.
    + intros p s0 _ H0. apply renderTocEntry_preserves. exact H0.
    + peel.
  - cbv beta. intros u s' H'. apply wp_forEach; [|exact H'].
    intros f s0 _ H0. apply renderFile_preserves. exact H0.
Qed.

End Preservation.

(* ------------------------------------------------------------------ *)
(** ** Runs stay between the margins *)







(* ------------------------------------------------------------------ *)
(** ** The cursor only moves forward *)

Lemma Sorted_snoc {A : Type} (R : A -> A -> Prop) (l : list A) (a b : A) :
  Sorted R (l ++ [a]) -> R a b -> Sorted R ((l ++ [a]) ++ [b]).
Proof.
  intros Hs Hab. induction l as [|c l IH]; simpl in *.
  - repeat constructor. exact Hab.
  - inversion Hs as [|? ? Hs' Hd]; subst. constructor; [apply IH; exact Hs'|].
    destruct l; simpl in *; inversion Hd; subst; constructor; assumption.
Qed.

Lemma hd_error_snoc {A : Type} (l : list A) (a b : A) :
  hd_error ((l ++ [a]) ++ [b]) = hd_error (l ++ [a]).
Proof.
  destruct l; reflexivity.
Qed.

Lemma chained_same (s s' : St) : same_cursor s s' -> chained s -> chained s'.
Proof.
  intros (Hp & _ & Hy & Ht) (H1 & H2 & H3). unfold chained.
  rewrite Hp, Hy, Ht. repeat split; assumption.
Qed.

Lemma chained_moved (s : St) (d : Q) : 0 <= d -> chained s -> chained (moved d s).
Proof.
  intros Hd (H1 & H2 & l & Hl). unfold chained; simpl. rewrite Hl in *.
  split; [|split].
  - apply Sorted_snoc; [exact H1|]. left. simpl. split; [reflexivity | lra].
  - rewrite hd_error_snoc. exact H2.
  - eexists. reflexivity.
Qed.

Lemma chained_checked (options : PdfOptions) (s : St) (h : Q) :
  chained s -> chained (checked options h s).
Proof.
  intros (H1 & H2 & l & Hl).
  destruct (checked_cases options h s) as [[_ ->] | [_ ->]].
  - split; [exact H1 | split; [exact H2 | exists l; exact Hl]].
  - unfold chained; simpl. rewrite Hl in *. split; [|split].
    + apply Sorted_snoc; [exact H1|]. right. simpl. split; reflexivity.
    + rewrite hd_error_snoc. exact H2.
    + eexists. reflexivity.
Qed.

Lemma chained_drawn (s : St) (site : Site) (t : list string) (x0 : Q) :
  chained s -> chained (drawn site t x0 s).
Proof.
  intro H. exact H.
Qed.

(** C9.  With a positive font size and line spacing, the history of the
    cursor over a whole render starts at the top margin of page 1, ends at
    the final cursor, and is a chain of moves each of which either stays on
    the page with [y] not decreasing, or goes to the next page with [y] at
    the top margin: pages only advance, [y] only grows within a page, and
    [y] returns to the top margin only when a page is opened. *)
Theorem cursor_monotone (data : FormattedRepoData) (options : PdfOptions) :
  0 < fontSize options -> 0 < lineSpacing options ->
  exists s, render data options initial = Ok (tt, s) /\
            Sorted cursor_step (trace s) /\
            hd_error (trace s) = Some (1%nat, MARGIN) /\
            exists l, trace s = l ++ [(currentPage (doc s), y s)].
Proof.
  intros Hf Hl. pose proof (LINE_HEIGHT_pos options Hf Hl) as HL.
  destruct (@render_preserves options chained chained) with (data := data)
    (s := initial) as ([] & s & Hs & Hc).
  - apply Qlt_le_weak. exact HL.
  - auto.
  - apply chained_same.
  - apply chained_same.
  - apply chained_moved.
  - intros s0 h _. apply chained_checked.
  - apply chained_drawn.
  - split; [repeat constructor | split; [reflexivity | exists []; reflexivity]].
  - exists s. split; [exact Hs | exact Hc].
Qed.

(* ------------------------------------------------------------------ *)
(** ** Claims on colours, tokens and degenerate documents *)

Lemma placed_last_run (options : PdfOptions) (token : HighlightedToken)
  (x : Q) (s : St) :
  exists r,
    runs (doc (snd (placed options token x s))) = runs (doc s) ++ [r] /\
    r_site r = TokenSite /\
    r_text r = [text token] /\
    r_color r = tokenColor options (color token) /\
    r_x r = (if wraps x (widthIn s token) then MARGIN else x) /\
    r_y r = y (snd (placed options token x s)) /\
    r_page r = currentPage (doc (snd (placed options token x s))).
Proof.
  unfold placed. destruct (wraps x (widthIn s token)); cbn [snd];
    eexists; rewrite drawn_runs.
  - rewrite checked_runs.
    destruct (checked_font options (LINE_HEIGHT options)
                (moved (LINE_HEIGHT options)
                   (colored (tokenColor options (color token)) s)))
      as (_ & _ & _ & Hc).
    repeat split. simpl. rewrite Hc. reflexivity.
  - repeat split.
Qed.

(** C5.  The colour a token is drawn in: a colour string that is not a hash
    sign and six hexadecimal digits gives the default text colour of the
    theme; under the dark theme ["#000000"] and ["black"] give the light
    foreground of that theme; under the light theme ["#FFFFFF"] and
    ["white"] give black; every other well-formed colour is kept. *)
Theorem token_color_rendered (options : PdfOptions) (token : HighlightedToken)
  (x : Q) (s : St) :
  exists x' s' r,
    renderToken options token x s = Ok (x', s') /\
    runs (doc s') = runs (doc s) ++ [r] /\
    r_text r = [text token] /\
    (is_hex_color (color token) = false ->
     r_color r = defaultTextColor options) /\
    (theme options = dark ->
     color token = "#000000"%string \/ color token = "black"%string ->
     r_color r = DARK_MODE_TEXT) /\
    (theme options = light ->
     color token = "#FFFFFF"%string \/ color token = "white"%string ->
     r_color r = LIGHT_MODE_TEXT) /\
    (is_hex_color (color token) = true ->
     ~ (theme options = dark /\ color token = "#000000"%string) ->
     ~ (theme options = light /\ color token = "#FFFFFF"%string) ->
     r_color r = color token).
Proof.
  destruct (placed_last_run options token x s)
    as (r & Hr & _ & Ht & Hc & _).
  exists (fst (placed options token x s)), (snd (placed options token x s)), r.
  split; [rewrite renderToken_eq; destruct (placed options token x s); reflexivity|].
  split; [exact Hr|]. split; [exact Ht|]. rewrite Hc.
  split; [apply tokenColor_invalid|].
  split; [apply tokenColor_dark_black|].
  split; [apply tokenColor_light_white | apply tokenColor_other].
Qed.

Lemma tokenKeys_runs (rs : list Run) :
  map r_text (filter (is_site TokenSite) rs) = tokenKeys (map key rs).
Proof.
  induction rs as [|r rs IH]; [reflexivity|].
  unfold tokenKeys, is_site in *. cbn [map filter flat_map key fst snd].
  destruct (r_site r); cbn [map app]; rewrite IH; reflexivity.
Qed.

Lemma separatorKeys_runs (rs : list Run) :
  map r_text (filter (is_site SeparatorSite) rs) = separatorKeys (map key rs).
Proof.
  induction rs as [|r rs IH]; [reflexivity|].
  unfold separatorKeys, is_site in *. cbn [map filter flat_map key fst snd].
  destruct (r_site r); cbn [map app]; rewrite IH; reflexivity.
Qed.

Lemma tokenKeys_layout (data : FormattedRepoData) (options : PdfOptions) :
  tokenKeys (layout data options) = map (fun t => [t]) (tokenTexts data).
Proof.
  unfold layout, tokenKeys, tokenTexts. cbn [flat_map fst app].
  rewrite flat_map_app.
  replace (flat_map _ (map (tocKey options) (tableOfContents data)))
    with (@nil (list string))
    by (induction (tableOfContents data); simpl; auto).
  cbn [app].
  induction (files data) as [|f fs IH]; [reflexivity|].
  cbn [flat_map]. rewrite !flat_map_app, map_app, IH. f_equal.
  unfold fileKeys. cbn [flat_map fst app].
  induction (lines f) as [|l ls IHl]; [reflexivity|].
  cbn [flat_map]. rewrite !flat_map_app, map_app, IHl. f_equal.
  unfold lineKeys. induction (tokens l) as [|t ts IHt]; simpl; congruence.
Qed.

Lemma separatorKeys_layout (data : FormattedRepoData) (options : PdfOptions) :
  separatorKeys (layout data options) =
  map (fun f => splitText (font options) bold 12 (separator f) contentWidth)
      (files data).
Proof.
  unfold layout, separatorKeys. cbn [flat_map fst app].
  rewrite flat_map_app.
  replace (flat_map _ (map (tocKey options) (tableOfContents data)))
    with (@nil (list string))
    by (induction (tableOfContents data); simpl; auto).
  cbn [app].
  induction (files data) as [|f fs IH]; [reflexivity|].
  cbn [flat_map map]. rewrite flat_map_app, IH.
  unfold fileKeys at 1. cbn [flat_map fst snd app]. f_equal.
  replace (flat_map _ (flat_map lineKeys (lines f))) with (@nil (list string));
    [reflexivity|].
  induction (lines f) as [|l ls IHl]; [reflexivity|].
  cbn [flat_map]. rewrite flat_map_app, <- IHl, app_nil_r.
  unfold lineKeys. induction (tokens l); simpl; auto.
Qed.

(** C2.  Every token of every line of every file is drawn by exactly one
    [doc.text] call that carries its whole text: the texts of the token runs
    of the document, in drawing order, are the token texts in reading order.
    A token wider than the content width, met at or right of the left
    margin, is drawn whole at the left margin and reaches past the right
    margin. *)
Theorem tokens_drawn_whole (data : FormattedRepoData) (options : PdfOptions) :
  (exists s, render data options initial = Ok (tt, s) /\
             map r_text (filter (is_site TokenSite) (runs (doc s))) =
             map (fun t => [t]) (tokenTexts data)) /\
  (forall token x s,
      MARGIN <= x -> contentWidth < widthIn s token ->
      exists x' s' r,
        renderToken options token x s = Ok (x', s') /\
        runs (doc s') = runs (doc s) ++ [r] /\
        r_text r = [text token] /\
        r_x r == MARGIN /\
        pageWidth - MARGIN < r_x r + widthIn s token).
Proof.
  split.
  - destruct (render_layout data options) as ([] & s & Hs & K).
    exists s. split; [exact Hs|].
    rewrite tokenKeys_runs. unfold keys in K. rewrite K.
    apply tokenKeys_layout.
  - intros token x s Hx Hw.
    destruct (placed_last_run options token x s)
      as (r & Hr & _ & Ht & _ & Hrx & _).
    exists (fst (placed options token x s)), (snd (placed options token x s)), r.
    split; [rewrite renderToken_eq; destruct (placed options token x s);
            reflexivity|].
    split; [exact Hr|]. split; [exact Ht|].
    unfold contentWidth in Hw.
    assert (Hm : r_x r == MARGIN).
    { rewrite Hrx. destruct (wraps x (widthIn s token)) eqn:W; [reflexivity|].
      destruct (Qlt_le_dec MARGIN x) as [Hlt | Hle].
      - exfalso. assert (Hc : wraps x (widthIn s token) = true).
        { apply wraps_true. split; [exact Hlt | lra]. }
        congruence.
      - lra. }
    split; [exact Hm|]. rewrite Hm. lra.
Qed.

(** C8.  For a document without files the render returns: the document
    handed to the serialiser holds the title, the heading of the table of
    contents and its entries, and nothing else. *)
Theorem empty_files_render (repoName : string) (data : FormattedRepoData)
  (options : PdfOptions) :
  files data = [] ->
  exists s,
    render data options initial = Ok (tt, s) /\
    generateRepoPdf repoName data options = Ok (output (doc s)) /\
    map key (runs (doc s)) =
    (TitleSite, splitText (font options) bold 24 (title data) contentWidth)
    :: (TocHeadingSite, ["Table of Contents"%string])
    :: map (tocKey options) (tableOfContents data) /\
    filter (is_site SeparatorSite) (runs (doc s)) = [] /\
    filter (is_site TokenSite) (runs (doc s)) = [].
Proof.
  intro Hf. destruct (render_layout data options) as ([] & s & Hs & K).
  exists s. split; [exact Hs|].
  split; [unfold generateRepoPdf; rewrite Hs; reflexivity|].
  unfold keys, layout in K. rewrite Hf in K. cbn [flat_map] in K.
  rewrite app_nil_r in K. split; [exact K|].
  split.
  - apply (f_equal separatorKeys) in K. rewrite <- separatorKeys_runs in K.
    apply map_eq_nil with (f := r_text). rewrite K.
    unfold separatorKeys. cbn [flat_map fst app].
    induction (tableOfContents data); simpl; auto.
  - apply (f_equal tokenKeys) in K. rewrite <- tokenKeys_runs in K.
    apply map_eq_nil with (f := r_text). rewrite K.
    unfold tokenKeys. cbn [flat_map fst app].
    induction (tableOfContents data); simpl; auto.
Qed.


(* ------------------------------------------------------------------ *)
(** ** The vertical advance of one line *)

Lemma widthIn_same_font (s s' : St) (t : HighlightedToken) :
  same_font s s' -> widthIn s' t = widthIn s t.
Proof.
  intros (H1 & H2 & H3). unfold widthIn, doc_getTextWidth.
  rewrite H1, H2, H3. reflexivity.
Qed.

Lemma placed_cursor (options : PdfOptions) (t : HighlightedToken) (x : Q) (s : St) :
  same_font s (snd (placed options t x s)) /\
  (currentPage (doc s) <= currentPage (doc (snd (placed options t x s))))%nat /\
  (currentPage (doc (snd (placed options t x s))) = currentPage (doc s) ->
   y (snd (placed options t x s)) ==
   y s + (if wraps x (widthIn s t) then LINE_HEIGHT options else 0)) /\
  fst (placed options t x s) =
  (if wraps x (widthIn s t) then MARGIN + widthIn s t else x + widthIn s t).
Proof.
  unfold placed. destruct (wraps x (widthIn s t)); cbn [fst snd].
  - set (s0 := moved (LINE_HEIGHT options)
                 (colored (tokenColor options (color t)) s)).
    destruct (checked_font options (LINE_HEIGHT options) s0) as (F1 & F2 & F3 & _).
    unfold same_font, drawn; cbn [doc y currentPage fontName fontStyle
                                   docFontSize add_mark].
    rewrite F1, F2, F3.
    destruct (checked_cases options (LINE_HEIGHT options) s0)
      as [[_ ->] | [_ ->]]; subst s0; simpl.
    + repeat split; try reflexivity; try lia.
    + repeat split; try reflexivity; try lia.
  - simpl. repeat split; try reflexivity; try lia; try (intros _; ring).
Qed.

Lemma tokens_rows (options : PdfOptions) (ts : list HighlightedToken) :
  forall (x : Q) (s : St),
  exists x' s',
    forEachWith ts (renderToken options) x s = Ok (x', s') /\
    same_font s s' /\
    (currentPage (doc s) <= currentPage (doc s'))%nat /\
    (currentPage (doc s') = currentPage (doc s) ->
     y s' == y s + Qnat (rowBreaks (map (widthIn s) ts) x) * LINE_HEIGHT options) /\
    (ts <> [] ->
     exists l r, runs (doc s') = l ++ [r] /\ r_site r = TokenSite /\
                 r_page r = currentPage (doc s') /\ r_y r = y s').
Proof.
  induction ts as [|t ts IH]; intros x s.
  - exists x, s. split; [reflexivity|]. split; [repeat split|].
    split; [lia|]. split; [|intro H; exfalso; apply H; reflexivity].
    intros _. simpl. unfold Qnat; simpl. ring.
  - destruct (placed_cursor options t x s) as (F & P & Y & X).
    destruct (placed_last_run options t x s)
      as (r & Hr & Hsite & _ & _ & _ & Hy & Hp).
    destruct (IH (fst (placed options t x s)) (snd (placed options t x s)))
      as (x' & s' & E & F' & P' & Y' & L').
    exists x', s'. split.
    { cbn [forEachWith]. unfold bind. rewrite renderToken_eq.
      destruct (placed options t x s). exact E. }
    split.
    { destruct F as (F1 & F2 & F3), F' as (G1 & G2 & G3).
      unfold same_font. rewrite G1, G2, G3. repeat split; assumption. }
    split; [lia|]. split.
    + intro Hpage.
      assert (H1 : currentPage (doc (snd (placed options t x s)))
                   = currentPage (doc s)) by lia.
      assert (H2 : currentPage (doc s')
                   = currentPage (doc (snd (placed options t x s)))) by lia.
      specialize (Y H1). specialize (Y' H2). rewrite Y', Y, X.
      rewrite (map_ext (widthIn (snd (placed options t x s))) (widthIn s))
        by (intro a; apply widthIn_same_font; exact F).
      cbn [map rowBreaks].
      destruct (wraps x (widthIn s t)); [rewrite Qnat_S|]; ring.
    + intros _. destruct ts as [|t' ts'].
      * cbn [forEachWith] in E. injection E as _ <-.
        exists (runs (doc s)), r. repeat split; assumption.
      * apply L'. discriminate.
Qed.

(** C6.  One logical line.  A line without tokens draws nothing and leaves
    [y] one line height below the row the page-break check settled on (the
    cursor, or the top margin of a new page).  A line with tokens leaves [y]
    exactly one line height below the row of its last token.  When the line
    stays on its page, [y] has advanced by one line height for every row
    break of the line, and by exactly one more. *)
Theorem line_advance (options : PdfOptions) (line : HighlightedLine) (s : St) :
  exists s',
    renderLine options line s = Ok (tt, s') /\
    (tokens line = [] ->
     runs (doc s') = runs (doc s) /\
     ((y s + LINE_HEIGHT options <= pageHeight - MARGIN /\
       currentPage (doc s') = currentPage (doc s) /\
       y s' == y s + LINE_HEIGHT options) \/
      (pageHeight - MARGIN < y s + LINE_HEIGHT options /\
       currentPage (doc s') = S (currentPage (doc s)) /\
       y s' == MARGIN + LINE_HEIGHT options))) /\
    (tokens line <> [] ->
     exists l r, runs (doc s') = l ++ [r] /\ r_site r = TokenSite /\
                 r_page r = currentPage (doc s') /\
                 y s' == r_y r + LINE_HEIGHT options) /\
    (currentPage (doc s') = currentPage (doc s) ->
     y s' == y s + Qnat (S (rowBreaks (map (widthIn s) (tokens line)) MARGIN))
                   * LINE_HEIGHT options).
Proof.
  unfold renderLine, bind. rewrite checkNewPage_eq.
  set (s0 := checked options (LINE_HEIGHT options) s).
  assert (F0 : same_font s s0).
  { destruct (checked_font options (LINE_HEIGHT options) s) as (F1 & F2 & F3 & _).
    repeat split; assumption. }
  destruct (tokens line) as [|t ts] eqn:E; cbn [List.length Nat.eqb].
  - exists (moved (LINE_HEIGHT options) s0). split; [reflexivity|].
    split; [|split].
    + intros _. split; [apply checked_runs|]. subst s0.
      destruct (checked_cases options (LINE_HEIGHT options) s)
        as [[Hy ->] | [Hy ->]]; [left | right]; simpl;
        repeat split; try assumption; reflexivity.
    + intro H. exfalso. apply H. reflexivity.
    + subst s0.
      destruct (checked_cases options (LINE_HEIGHT options) s)
        as [[Hy ->] | [Hy ->]]; simpl.
      * intros _. unfold Qnat; simpl. ring.
      * intro H. exfalso. lia.
  - destruct (tokens_rows options (t :: ts) MARGIN s0)
      as (x' & s1 & Hs1 & F1 & P1 & Y1 & L1).
    rewrite Hs1. exists (moved (LINE_HEIGHT options) s1).
    split; [reflexivity|]. split; [|split].
    + intro H. discriminate H.
    + intros _. destruct L1 as (l & r & Hr & Hsite & Hp & Hy); [discriminate|].
      exists l, r. simpl. rewrite Hy. repeat split; try assumption;
        reflexivity.
    + cbn [moved doc y]. intro Hpage.
      assert (Hle : (currentPage (doc s) <= currentPage (doc s0))%nat).
      { subst s0. destruct (checked_cases options (LINE_HEIGHT options) s)
          as [[_ ->] | [_ ->]]; simpl; lia. }
      assert (H0 : s0 = s).
      { subst s0. destruct (checked_cases options (LINE_HEIGHT options) s)
          as [[_ ->] | [_ Ht]]; [reflexivity|].
        exfalso. rewrite Ht in P1. simpl in P1. lia. }
      rewrite H0 in *. rewrite (Y1 Hpage), Qnat_S. ring.
Qed.

(* ------------------------------------------------------------------ *)
(** ** The order of the file sections *)






Lemma insert_perm {A : Type} (compare : A -> A -> Z) (a : A) (l : list A) :
  Permutation (insert compare a l) (a :: l).
Proof.
  induction l as [|b l IH]; simpl; [reflexivity|].
  destruct (compare a b <=? 0)%Z; [reflexivity|].
  rewrite IH. apply perm_swap.
Qed.

Lemma sort_perm {A : Type} (compare : A -> A -> Z) (l : list A) :
  Permutation (sort compare l) l.
Proof.
  induction l as [|a l IH]; simpl; [reflexivity|].
  rewrite insert_perm. constructor. exact IH.
Qed.

Section KeyedSort.

Context {A : Type}.
Variable k : A -> Z.

Local Notation "'by_key'" := (fun a b : A => (k a - k b)%Z).
Local Notation "'le_key'" := (fun a b : A => (k a <= k b)%Z).

Lemma insert_sorted (a : A) (l : list A) :
  StronglySorted le_key l -> StronglySorted le_key (insert by_key a l).
Proof.
  intro Hs. induction Hs as [|b l Hs IH Hf]; cbn [insert].
  - repeat constructor.
  - destruct (Z.leb_spec (k a - k b) 0) as [Hle | Hgt].
    + constructor; [constructor; assumption|].
      constructor; [lia|].
      rewrite Forall_forall in *. intros x Hx.
      specialize (Hf x Hx). cbv beta in Hf. lia.
    + constructor; [exact IH|].
      apply (Permutation_Forall (Permutation_sym (insert_perm by_key a l))).
      constructor; [lia | exact Hf].
Qed.

Lemma sort_sorted (l : list A) : StronglySorted le_key (sort by_key l).
Proof.
  induction l as [|a l IH]; cbn [sort]; [constructor | apply insert_sorted, IH].
Qed.




End KeyedSort.





(* ------------------------------------------------------------------ *)
(** ** Further properties of the renderer *)




(** X5.  [checkNewPage] for a block that fits on an empty page does nothing
    when called a second time.  For a block taller than the room between
    the margins it opens a new page from every cursor at or below the top
    margin, the top of a fresh page included, and draws no run. *)
Theorem checkNewPage_twice (options : PdfOptions) (h : Q) (s : St) :
  (MARGIN + h <= pageHeight - MARGIN ->
   bind (checkNewPage options h) (fun _ => checkNewPage options h) s
   = checkNewPage options h s) /\
  (MARGIN <= y s -> pageHeight - MARGIN < MARGIN + h ->
   exists s', checkNewPage options h s = Ok (tt, s') /\
              currentPage (doc s') = S (currentPage (doc s)) /\
              y s' = MARGIN /\ runs (doc s') = runs (doc s)).
Proof.
  split.
  - intro Hfit. unfold bind. rewrite (checkNewPage_eq options h s).
    cbv beta iota. rewrite checkNewPage_eq. f_equal. f_equal.
    destruct (checked_cases options h s) as [[Hy E] | [Hy E]]; rewrite E.
    + exact E.
    + unfold checked at 1. cbn [y turned].
      assert (Hq : Qgtb (MARGIN + h) (pageHeight - MARGIN) = false)
        by (apply Qgtb_false; exact Hfit).
      rewrite Hq. reflexivity.
  - intros Hy Hbig. exists (turned options s).
    assert (E : checked options h s = turned options s).
    { destruct (checked_cases options h s) as [[Hle _] | [_ E]];
        [exfalso; lra | exact E]. }
    split; [rewrite checkNewPage_eq, E; reflexivity|].
    split; [reflexivity|]. split; [reflexivity | apply turned_runs].
Qed.

Lemma placed_no_wrap (options : PdfOptions) (t : HighlightedToken) (x : Q)
  (s : St) :
  wraps x (widthIn s t) = false ->
  placed options t x s =
  (x + widthIn s t,
   drawn TokenSite [text t] x (colored (tokenColor options (color t)) s)).
Proof.
  intro W. unfold placed. rewrite W. reflexivity.
Qed.

Lemma renderToken_placed (options : PdfOptions) (t : HighlightedToken) (x : Q)
  (s : St) :
  renderToken options t x s
  = Ok (fst (placed options t x s), snd (placed options t x s)).
Proof.
  rewrite renderToken_eq. destruct (placed options t x s). reflexivity.
Qed.

Lemma same_font_trans (s1 s2 s3 : St) :
  same_font s1 s2 -> same_font s2 s3 -> same_font s1 s3.
Proof.
  intros (A1 & A2 & A3) (B1 & B2 & B3). unfold same_font.
  rewrite B1, B2, B3. repeat split; assumption.
Qed.

Lemma same_font_checked (options : PdfOptions) (h : Q) (s : St) :
  same_font s (checked options h s).
Proof.
  destruct (checked_font options h s) as (F1 & F2 & F3 & _).
  repeat split; assumption.
Qed.

Lemma tokens_within_margins (options : PdfOptions) (s : St)
  (ts : list HighlightedToken) :
  forall (x : Q) (s0 : St),
    same_font s s0 -> MARGIN <= x ->
    (forall t, In t ts -> 0 <= widthIn s t) ->
    exists x' s' rs,
      forEachWith ts (renderToken options) x s0 = Ok (x', s') /\
      runs (doc s') = runs (doc s0) ++ rs /\
      Forall2 (fun t r => r_text r = [text t] /\ MARGIN <= r_x r /\
                 (MARGIN < r_x r ->
                  r_x r + widthIn s t <= pageWidth - MARGIN)) ts rs.
Proof.
  induction ts as [|t ts IH]; intros x s0 F Hx Hw.
  - exists x, s0, []. split; [reflexivity|].
    split; [symmetry; apply app_nil_r | constructor].
  - destruct (placed_cursor options t x s0) as (F1 & _ & _ & X).
    destruct (placed_last_run options t x s0)
      as (r & Hr & _ & Ht & _ & Hrx & _).
    pose proof (widthIn_same_font s s0 t F) as Ew.
    assert (Hwt : 0 <= widthIn s t) by (apply Hw; left; reflexivity).
    destruct (IH (fst (placed options t x s0)) (snd (placed options t x s0)))
      as (x' & s' & rs & E & Hrs & HF).
    { exact (same_font_trans s s0 _ F F1). }
    { rewrite X, Ew. destruct (wraps x (widthIn s t)); lra. }
    { intros t' Ht'. apply Hw. right. exact Ht'. }
    exists x', s', (r :: rs). split.
    { cbn [forEachWith]. unfold bind. rewrite renderToken_placed. exact E. }
    split; [rewrite Hrs, Hr, <- app_assoc; reflexivity|].
    constructor; [|exact HF]. split; [exact Ht|].
    rewrite Hrx, Ew. destruct (wraps x (widthIn s t)) eqn:W.
    + split; [apply Qle_refl | intro H; exfalso; lra].
    + split; [exact Hx|]. intro Hgt.
      destruct (Qlt_le_dec (pageWidth - MARGIN) (x + widthIn s t)) as [Hover | Hok];
        [|exact Hok].
      exfalso. assert (Hc : wraps x (widthIn s t) = true)
        by (apply wraps_true; split; assumption).
      congruence.
Qed.

(** X7.  In every line, when no token has a negative width, each token is
    drawn by one run that starts at or right of the left margin, and a run
    that starts right of the left margin ends at or left of the right
    margin: only the first token of a row can reach past the right margin. *)
Theorem line_tokens_within_margins (options : PdfOptions)
  (line : HighlightedLine) (s : St) :
  (forall t, In t (tokens line) -> 0 <= widthIn s t) ->
  exists s' rs,
    renderLine options line s = Ok (tt, s') /\
    runs (doc s') = runs (doc s) ++ rs /\
    Forall2 (fun t r => r_text r = [text t] /\ MARGIN <= r_x r /\
               (MARGIN < r_x r ->
                r_x r + widthIn s t <= pageWidth - MARGIN))
            (tokens line) rs.
Proof.
  intro Hw. unfold renderLine, bind. rewrite checkNewPage_eq.
  set (s0 := checked options (LINE_HEIGHT options) s).
  destruct (tokens line) as [|t ts] eqn:E; cbn [List.length Nat.eqb].
  - exists (moved (LINE_HEIGHT options) s0), []. split; [reflexivity|].
    split; [|constructor].
    cbn [moved doc]. subst s0. rewrite checked_runs. symmetry. apply app_nil_r.
  - destruct (tokens_within_margins options s (t :: ts) MARGIN s0)
      as (x' & s1 & rs & E1 & Hrs & HF).
    { apply same_font_checked. }
    { apply Qle_refl. }
    { exact Hw. }
    rewrite E1. exists (moved (LINE_HEIGHT options) s1), rs.
    split; [reflexivity|]. split; [|exact HF].
    cbn [moved doc]. rewrite Hrs. subst s0. rewrite checked_runs. reflexivity.
Qed.

Lemma Qsum_nonneg (ws : list Q) : Forall (fun w => 0 <= w) ws -> 0 <= Qsum ws.
Proof.
  induction 1 as [|w ws Hw _ IH]; simpl; [apply Qle_refl | lra].
Qed.

Lemma tokens_one_row (options : PdfOptions) (s : St)
  (ts : list HighlightedToken) :
  forall (x : Q) (s0 : St),
    same_font s s0 ->
    (forall t, In t ts -> 0 <= widthIn s t) ->
    x + Qsum (map (widthIn s) ts) <= pageWidth - MARGIN ->
    exists x' s' rs,
      forEachWith ts (renderToken options) x s0 = Ok (x', s') /\
      runs (doc s') = runs (doc s0) ++ rs /\
      map r_text rs = map (fun t => [text t]) ts /\
      map r_x rs = offsets x (map (widthIn s) ts) /\
      Forall (fun r => r_page r = currentPage (doc s0) /\ r_y r = y s0) rs /\
      currentPage (doc s') = currentPage (doc s0) /\ y s' = y s0.
Proof.
  induction ts as [|t ts IH]; intros x s0 F Hw Hfit.
  - exists x, s0, []. split; [reflexivity|].
    split; [symmetry; apply app_nil_r|]. repeat split. constructor.
  - pose proof (widthIn_same_font s s0 t F) as Ew.
    assert (Hwt : 0 <= widthIn s t) by (apply Hw; left; reflexivity).
    assert (Hrest : 0 <= Qsum (map (widthIn s) ts)).
    { apply Qsum_nonneg, Forall_map, Forall_forall.
      intros t' Ht'. apply Hw. right. exact Ht'. }
    cbn [map Qsum] in Hfit.
    assert (W : wraps x (widthIn s0 t) = false).
    { unfold wraps. apply andb_false_iff. right. apply Qgtb_false.
      rewrite Ew. lra. }
    pose proof (placed_no_wrap options t x s0 W) as P.
    set (s1 := drawn TokenSite [text t] x
                 (colored (tokenColor options (color t)) s0)) in *.
    destruct (IH (x + widthIn s t) s1) as (x' & s' & rs & E & Hrs & Ht & Hx & Hr & Hp & Hy).
    { destruct F as (F1 & F2 & F3). repeat split; assumption. }
    { intros t' Ht'. apply Hw. right. exact Ht'. }
    { lra. }
    eexists x', s', (_ :: rs). split.
    { cbn [forEachWith]. unfold bind. rewrite renderToken_eq, P, Ew. exact E. }
    split.
    { rewrite Hrs. subst s1. rewrite drawn_runs, <- app_assoc. reflexivity. }
    cbn [map offsets r_text r_x]. rewrite Ht, Hx.
    split; [reflexivity|]. split; [reflexivity|].
    split; [|split; assumption].
    constructor; [split; reflexivity | exact Hr].
Qed.

(** X6.  A line whose tokens have no negative width and together are not
    wider than the content width is drawn on one row: after the page-break
    check, every token is drawn on the page and at the height the check
    left, the first at the left margin and each next one where the one
    before ends; then [y] moves down by one line height. *)
Theorem fitting_line_one_row (options : PdfOptions) (line : HighlightedLine)
  (s : St) :
  (forall t, In t (tokens line) -> 0 <= widthIn s t) ->
  Qsum (map (widthIn s) (tokens line)) <= contentWidth ->
  exists s0 s' rs,
    checkNewPage options (LINE_HEIGHT options) s = Ok (tt, s0) /\
    renderLine options line s = Ok (tt, s') /\
    runs (doc s') = runs (doc s) ++ rs /\
    map r_text rs = map (fun t => [text t]) (tokens line) /\
    map r_x rs = offsets MARGIN (map (widthIn s) (tokens line)) /\
    Forall (fun r => r_page r = currentPage (doc s0) /\ r_y r = y s0) rs /\
    currentPage (doc s') = currentPage (doc s0) /\
    y s' = y s0 + LINE_HEIGHT options.
Proof.
  intros Hw Hfit. unfold contentWidth in Hfit.
  exists (checked options (LINE_HEIGHT options) s).
  unfold renderLine, bind. rewrite checkNewPage_eq.
  set (s0 := checked options (LINE_HEIGHT options) s).
  destruct (tokens line) as [|t ts] eqn:E; cbn [List.length Nat.eqb].
  - exists (moved (LINE_HEIGHT options) s0), [].
    split; [reflexivity|]. split; [reflexivity|].
    split; [cbn [moved doc]; subst s0; rewrite checked_runs;
            symmetry; apply app_nil_r|].
    repeat split. constructor.
  - destruct (tokens_one_row options s (t :: ts) MARGIN s0)
      as (x' & s1 & rs & E1 & Hrs & Ht & Hx & Hr & Hp & Hy).
    { apply same_font_checked. }
    { exact Hw. }
    { lra. }
    rewrite E1. exists (moved (LINE_HEIGHT options) s1), rs.
    split; [reflexivity|]. split; [reflexivity|].
    split; [cbn [moved doc]; rewrite Hrs; subst s0; rewrite checked_runs;
            reflexivity|].
    split; [exact Ht|]. split; [exact Hx|]. split; [exact Hr|].
    split; [exact Hp|]. cbn [moved y]. rewrite Hy. reflexivity.
Qed.

(* ------------------------------------------------------------------ *)
(** ** Invariants of the pages

    A property of the current page and the marks that survives a page
    turn, a run at the cursor and a move of [y] holds throughout the render
    once it holds after the first [addPageBackground]. *)

Lemma addPageBackground_eq (options : PdfOptions) (s : St) :
  addPageBackground options s = Ok (tt, filled options s).
Proof.
  unfold addPageBackground, filled. destruct (isDarkMode options).
  - unfold bind, call, doc_setFillColor.
    rewrite (accepts_hex DARK_MODE_BACKGROUND eq_refl). reflexivity.
  - reflexivity.
Qed.

Section PagePreservation.

Variable options : PdfOptions.
Variable I : St -> Prop.

Hypothesis I_with_doc :
  forall s d, currentPage d = currentPage (doc s) -> marks d = marks (doc s) ->
              I s -> I (with_doc d s).
Hypothesis I_moved : forall s d, I s -> I (moved d s).
Hypothesis I_turned : forall s, I s -> I (turned options s).
Hypothesis I_drawn : forall s site t x0, I s -> I (drawn site t x0 s).

Lemma I_checked (h : Q) (s : St) : I s -> I (checked options h s).
Proof.
  intro H. destruct (checked_cases options h s) as [[_ ->] | [_ ->]];
    [exact H | apply I_turned; exact H].
Qed.

Ltac keep :=
  repeat first
    [ assumption
    | match goal with
      | |- I (with_doc _ _) => apply I_with_doc; [reflexivity | reflexivity |]
      | |- I (colored _ _) => apply I_with_doc; [reflexivity | reflexivity |]
      | |- I (moved _ _) => apply I_moved
      | |- I (drawn _ _ _ _) => apply I_drawn
      | |- I (checked _ _ _) => apply I_checked
      end ].

Lemma placed_keeps (token : HighlightedToken) (x : Q) (s : St) :
  I s -> I (snd (placed options token x s)).
Proof.
  intro H. unfold placed. destruct (wraps x _); cbn [snd]; keep.
Qed.

Lemma tokens_keep (ts : list HighlightedToken) :
  forall (x : Q) (s : St),
    I s -> wp (forEachWith ts (renderToken options) x) (fun _ => I) s.
Proof.
  induction ts as [|t ts IH]; intros x s H; simpl.
  - apply wp_ret. exact H.
  - apply wp_bind.
    exists (fst (placed options t x s)), (snd (placed options t x s)).
    split; [apply renderToken_placed|].
    apply IH. apply placed_keeps. exact H.
Qed.

Lemma renderLine_keeps (line : HighlightedLine) (s : St) :
  I s -> wp (renderLine options line) (fun _ => I) s.
Proof.
  intro H. unfold renderLine. wp_stack.
  destruct (tokens line) as [|t ts]; cbn [List.length Nat.eqb].
  - wp_stack. keep.
  - apply wp_bind. eapply wp_mono.
    + apply tokens_keep. keep.
    + cbv beta. intros x' s' H'. wp_stack. keep.
Qed.

Lemma renderFile_keeps (file : HighlightedFile) (s : St) :
  I s -> wp (renderFile options file) (fun _ => I) s.
Proof.
  intro H. unfold renderFile. wp_stack.
  apply wp_forEach.
  - intros l s0 _ H0. apply renderLine_keeps. exact H0.
  - keep.
Qed.

Lemma renderTocEntry_keeps (p : string) (s : St) :
  I s -> wp (renderTocEntry options p) (fun _ => I) s.
Proof.
  intro H. unfold renderTocEntry. wp_stack. keep.
Qed.

Lemma render_keeps (data : FormattedRepoData) (s : St) :
  I (filled options s) -> wp (render data options) (fun _ => I) s.
Proof.
  intro H. unfold render, renderTitle, renderToc.
  apply wp_bind. apply wp_bind.
  exists tt, (filled options s). split; [apply addPageBackground_eq|].
  wp_stack. eapply wp_mono.
  - apply wp_forEach.
    + intros p s0 _ H0. apply renderTocEntry_keeps. exact H0.
    + keep.
  - cbv beta. intros u s' H'. apply wp_forEach; [|exact H'].
    intros f s0 _ H0. apply renderFile_keeps. exact H0.
Qed.

End PagePreservation.

Lemma rects_of_app (a b : list Mark) : rects_of (a ++ b) = rects_of a ++ rects_of b.
Proof.
  induction a as [|[r|] a IH]; simpl; congruence.
Qed.

Lemma rect_pages_rects_of (ms : list Mark) :
  rect_pages (rects_of ms) = rect_pages ms.
Proof.
  induction ms as [|[r|] ms IH]; simpl; congruence.
Qed.

Lemma rect_pages_backgrounds (l : list nat) : rect_pages (map background l) = l.
Proof.
  induction l as [|p l IH]; simpl; congruence.
Qed.

Lemma backed_snoc_rect (ms : list Mark) :
  forall seen p c x0 y0 w h,
    backed seen ms -> backed seen (ms ++ [MRect p c x0 y0 w h]).
Proof.
  induction ms as [|[r|p' c' a1 a2 a3 a4] ms IH];
    intros seen p c x0 y0 w h H; simpl in *.
  - exact I.
  - split; [apply H | apply IH, H].
  - apply IH. exact H.
Qed.

Lemma backed_snoc_text (ms : list Mark) :
  forall seen r,
    backed seen ms -> In (r_page r) (rect_pages ms) \/ In (r_page r) seen ->
    backed seen (ms ++ [MText r]).
Proof.
  induction ms as [|[r'|p c a1 a2 a3 a4] ms IH]; intros seen r H Hin;
    simpl in *.
  - split; [destruct Hin as [[] | Hin]; exact Hin | exact I].
  - split; [apply H | apply IH; [apply H | exact Hin]].
  - apply IH; [exact H|]. destruct Hin as [[Hp | Hin] | Hin].
    + right. left. exact Hp.
    + left. exact Hin.
    + right. right. exact Hin.
Qed.

(** X3.  Under the dark theme the rectangles of the rendered document are
    one full-page rectangle in the dark background colour per page, in page
    order, and every run is drawn after the rectangle of its page.  Under
    the light theme no rectangle is drawn. *)
Theorem pages_filled (data : FormattedRepoData) (options : PdfOptions) :
  exists s,
    render data options initial = Ok (tt, s) /\
    (theme options = dark ->
     rects_of (marks (doc s))
     = map background (seq 1 (currentPage (doc s))) /\
     backed [] (marks (doc s))) /\
    (theme options = light -> rects_of (marks (doc s)) = []).
Proof.
  destruct (theme options) eqn:Ht.
  - pose proof (isDarkMode_light _ Ht) as Hd.
    destruct (@render_keeps options unfilled) with (data := data) (s := initial)
      as ([] & s & Hs & Hu).
    + intros s d _ Hm H. unfold unfilled, with_doc. cbn [doc]. rewrite Hm. exact H.
    + intros s d H. exact H.
    + intros s H. unfold unfilled, turned. cbn [doc marks]. rewrite Hd. exact H.
    + intros s site t x0 H. unfold unfilled, drawn, add_mark. cbn [doc marks].
      rewrite rects_of_app, H. reflexivity.
    + unfold filled. rewrite Hd. reflexivity.
    + exists s. split; [exact Hs|]. split; [discriminate | intros _; exact Hu].
  - pose proof (isDarkMode_dark _ Ht) as Hd.
    destruct (@render_keeps options dark_filled) with (data := data) (s := initial)
      as ([] & s & Hs & _ & Hr & Hb).
    + intros s d Hp Hm (H1 & H2 & H3). unfold dark_filled, with_doc. cbn [doc].
      rewrite Hp, Hm. repeat split; assumption.
    + intros s d H. exact H.
    + intros s (H1 & H2 & H3). unfold dark_filled, turned.
      cbn [doc marks currentPage]. rewrite Hd.
      split; [lia|]. split.
      * rewrite rects_of_app, H2, seq_S, map_app. reflexivity.
      * apply backed_snoc_rect. exact H3.
    + intros s site t x0 (H1 & H2 & H3). unfold dark_filled, drawn, add_mark.
      cbn [doc marks currentPage]. split; [exact H1|]. split.
      * rewrite rects_of_app, H2. cbn [rects_of]. apply app_nil_r.
      * apply backed_snoc_text; [exact H3|]. left. cbn [r_page].
        rewrite <- rect_pages_rects_of, H2, rect_pages_backgrounds.
        apply in_seq. lia.
    + unfold filled. rewrite Hd. unfold dark_filled, with_doc.
      cbn [doc marks currentPage initial newDoc app rects_of seq map backed].
      repeat split; reflexivity.
    + exists s. split; [exact Hs|]. split; [intros _; split; assumption | discriminate].
Qed.

Lemma StronglySorted_le_snoc (l : list nat) (n : nat) :
  StronglySorted le l -> Forall (fun m => (m <= n)%nat) l ->
  StronglySorted le (l ++ [n]).
Proof.
  intros Hs Hf. induction Hs as [|a l Hs IH Ha]; simpl.
  - repeat constructor.
  - inversion Hf as [|? ? Han Hf']; subst. constructor; [apply IH; exact Hf'|].
    apply Forall_app. split; [exact Ha | repeat constructor; exact Han].
Qed.

(** X4.  The runs of the rendered document are in page order: the page of
    a run is never lower than the page of a run drawn before it, the first
    page is page 1 or later, and no run lies beyond the last page opened. *)
Theorem run_pages_ordered (data : FormattedRepoData) (options : PdfOptions) :
  exists s,
    render data options initial = Ok (tt, s) /\
    StronglySorted le (map r_page (runs (doc s))) /\
    Forall (fun r => (1 <= r_page r <= currentPage (doc s))%nat) (runs (doc s)).
Proof.
  destruct (@render_keeps options paged) with (data := data) (s := initial)
    as ([] & s & Hs & _ & H2 & H3).
  - intros s d Hp Hm (H1 & H2 & H3). unfold paged, with_doc, runs in *.
    cbn [doc]. rewrite Hp, Hm. repeat split; assumption.
  - intros s d H. exact H.
  - intros s (H1 & H2 & H3). unfold paged. rewrite turned_runs.
    cbn [turned doc currentPage]. split; [lia|]. split; [exact H2|].
    eapply Forall_impl; [|exact H3]. cbv beta. intros r Hr. lia.
  - intros s site t x0 (H1 & H2 & H3). unfold paged. rewrite drawn_runs.
    cbn [drawn doc currentPage add_mark]. split; [exact H1|].
    rewrite map_app. cbn [map r_page]. split.
    + apply StronglySorted_le_snoc; [exact H2|].
      apply Forall_map. eapply Forall_impl; [|exact H3].
      cbv beta. intros r Hr. lia.
    + apply Forall_app. split; [exact H3|]. repeat constructor.
      cbn [r_page]. exact H1.
  - unfold paged, filled. destruct (isDarkMode options).
    + unfold with_doc, runs. cbn [doc marks currentPage initial newDoc app runs_of map].
      repeat split; try constructor.
    + unfold runs. cbn [doc marks currentPage initial newDoc runs_of map].
      repeat split; try constructor.
  - exists s. split; [exact Hs|]. split; assumption.
Qed.

(* ------------------------------------------------------------------ *)
(** ** Fonts and colours of the runs *)

Lemma checked_textColor (options : PdfOptions) (h : Q) (s : St) :
  textColor (doc (checked options h s)) = textColor (doc s).
Proof.
  apply (checked_font options h s).
Qed.

Lemma checked_fontName (options : PdfOptions) (h : Q) (s : St) :
  fontName (doc (checked options h s)) = fontName (doc s).
Proof.
  apply (checked_font options h s).
Qed.

Lemma checked_fontStyle (options : PdfOptions) (h : Q) (s : St) :
  fontStyle (doc (checked options h s)) = fontStyle (doc s).
Proof.
  apply (checked_font options h s).
Qed.

Lemma checked_docFontSize (options : PdfOptions) (h : Q) (s : St) :
  docFontSize (doc (checked options h s)) = docFontSize (doc s).
Proof.
  apply (checked_font options h s).
Qed.

Ltac looks_simp :=
  unfold looks, runs, font_is in *; cbn [doc marks] in *;
  rewrite ?runs_of_app, ?map_app, ?checked_marks_runs,
    ?checked_textColor, ?checked_fontName, ?checked_fontStyle,
    ?checked_docFontSize;
  cbn [runs_of map look r_site r_text r_color r_font r_style r_size r_x doc
       marks textColor fontName fontStyle docFontSize].

Lemma wp_forEach_looks {A : Type} (P : St -> Prop) (e : A -> list Look)
  (f : A -> M St unit) (l : list A) :
  (forall a s, P s ->
     wp (f a) (fun _ s' => P s' /\ looks s' = looks s ++ e a) s) ->
  forall s, P s ->
    wp (forEach l f) (fun _ s' => P s' /\ looks s' = looks s ++ flat_map e l) s.
Proof.
  intro Hf. induction l as [|a l IH]; intros s Hs; simpl.
  - apply wp_ret. split; [exact Hs | symmetry; apply app_nil_r].
  - apply wp_bind. eapply wp_mono; [apply Hf; exact Hs|].
    intros u s1 [H1 K1]. eapply wp_mono; [apply IH; exact H1|].
    intros u' s2 [H2 K2]. split; [exact H2|].
    rewrite K2, K1, app_assoc. reflexivity.
Qed.

Lemma placed_looks (options : PdfOptions) (t : HighlightedToken) (x : Q) (s : St) :
  font_is (font options) normal (fontSize options) s ->
  font_is (font options) normal (fontSize options) (snd (placed options t x s)) /\
  looks (snd (placed options t x s)) = looks s ++ [tokenLook options t].
Proof.
  intros (F1 & F2 & F3). unfold placed, tokenLook.
  destruct (wraps x (widthIn s t)); cbn [snd]; unfold drawn, moved, colored,
    with_doc, add_mark; looks_simp; rewrite F1, F2, F3; repeat split.
Qed.

Lemma tokens_looks (options : PdfOptions) (ts : list HighlightedToken) :
  forall (x : Q) (s : St),
    font_is (font options) normal (fontSize options) s ->
    wp (forEachWith ts (renderToken options) x)
       (fun _ s' => font_is (font options) normal (fontSize options) s' /\
                    looks s' = looks s ++ map (tokenLook options) ts) s.
Proof.
  induction ts as [|t ts IH]; intros x s F; simpl.
  - apply wp_ret. split; [exact F | symmetry; apply app_nil_r].
  - destruct (placed_looks options t x s F) as [F1 K1].
    apply wp_bind.
    exists (fst (placed options t x s)), (snd (placed options t x s)).
    split; [apply renderToken_placed|].
    eapply wp_mono; [apply IH; exact F1|]. cbv beta.
    intros x' s' [F' K]. split; [exact F'|].
    rewrite K, K1, <- app_assoc. reflexivity.
Qed.

Lemma renderLine_looks (options : PdfOptions) (line : HighlightedLine) (s : St) :
  font_is (font options) normal (fontSize options) s ->
  wp (renderLine options line)
     (fun _ s' => font_is (font options) normal (fontSize options) s' /\
                  looks s' = looks s ++ lineLooks options line) s.
Proof.
  intro F. unfold renderLine, lineLooks. wp_run.
  destruct (tokens line) as [|t ts] eqn:E; cbn [List.length Nat.eqb].
  - wp_run. looks_simp. split; [exact F | symmetry; apply app_nil_r].
  - apply wp_bind. eapply wp_mono.
    + apply tokens_looks. looks_simp. exact F.
    + cbv beta. intros x' s' [F' K]. wp_run. looks_simp.
      rewrite checked_marks_runs in K. split; [exact F' | exact K].
Qed.

Lemma renderFile_looks (options : PdfOptions) (file : HighlightedFile) (s : St) :
  wp (renderFile options file)
     (fun _ s' => looks s' = looks s ++ fileLooks options file) s.
Proof.
  unfold renderFile. wp_run.
  match goal with |- wp _ _ ?s1 => set (s2 := s1) end.
  eapply wp_mono.
  - apply (wp_forEach_looks (font_is (font options) normal (fontSize options))
             (lineLooks options)) with (s := s2).
    + intros l s0 F0. apply renderLine_looks. exact F0.
    + subst s2. repeat split.
  - cbv beta. intros u s' [_ K]. rewrite K. subst s2.
    unfold fileLooks. looks_simp. rewrite <- app_assoc. reflexivity.
Qed.

Lemma renderTocEntry_looks (options : PdfOptions) (p : string) (s : St) :
  font_is (font options) normal (fontSize options) s /\
  textColor (doc s) = defaultTextColor options ->
  wp (renderTocEntry options p)
     (fun _ s' => (font_is (font options) normal (fontSize options) s' /\
                   textColor (doc s') = defaultTextColor options) /\
                  looks s' = looks s ++ [tocLook options p]) s.
Proof.
  intros [(Hn & Hs & Hz) Hc]. unfold renderTocEntry. wp_run.
  rewrite Hn, Hs, Hz. looks_simp. rewrite Hn, Hs, Hz, Hc.
  repeat split.
Qed.

Lemma renderToc_looks (data : FormattedRepoData) (options : PdfOptions) (s : St) :
  textColor (doc s) = defaultTextColor options ->
  wp (renderToc data options)
     (fun _ s' =>
        looks s' = looks s
                   ++ (TocHeadingSite, ["Table of Contents"%string],
                       defaultTextColor options, font options, bold, 16,
                       Some MARGIN)
                   :: map (tocLook options) (tableOfContents data)) s.
Proof.
  intro Hc. unfold renderToc. wp_run.
  match goal with |- wp _ _ ?s1 => set (s2 := s1) end.
  eapply wp_mono.
  - apply (wp_forEach_looks
             (fun s0 => font_is (font options) normal (fontSize options) s0 /\
                        textColor (doc s0) = defaultTextColor options)
             (fun p => [tocLook options p])) with (s := s2).
    + intros p s0 H0. apply renderTocEntry_looks. exact H0.
    + subst s2. looks_simp. repeat split. exact Hc.
  - cbv beta. intros u s' [_ K]. rewrite K. subst s2.
    looks_simp. rewrite Hc, <- app_assoc, flat_map_singleton. reflexivity.
Qed.

Lemma renderTitle_looks (data : FormattedRepoData) (options : PdfOptions) (s : St) :
  wp (renderTitle data options)
     (fun _ s' =>
        textColor (doc s') = defaultTextColor options /\
        looks s' = looks s
                   ++ [(TitleSite,
                        splitText (font options) bold 24 (title data) contentWidth,
                        defaultTextColor options, font options, bold, 24,
                        Some MARGIN)]) s.
Proof.
  unfold renderTitle. apply wp_bind. apply wp_addPageBackground.
  intros d [Hp Hr] Hn Hs Hz. wp_run. looks_simp.
  split; [reflexivity|]. unfold runs in Hr. rewrite Hr. reflexivity.
Qed.

Lemma render_styled (data : FormattedRepoData) (options : PdfOptions) :
  wp (render data options)
     (fun _ s' => looks s' = styledLayout data options) initial.
Proof.
  unfold render. apply wp_bind. eapply wp_mono; [apply renderTitle_looks|].
  cbv beta. intros u s1 [C1 K1]. apply wp_bind.
  eapply wp_mono; [apply renderToc_looks; exact C1|].
  cbv beta. intros u2 s2 K2. eapply wp_mono.
  - apply (wp_forEach_looks (fun _ => True) (fileLooks options)) with (s := s2);
      [|exact I].
    intros f s0 _. eapply wp_mono; [apply renderFile_looks|].
    intros u3 s' K. split; [exact I | exact K].
  - cbv beta. intros u3 s3 [_ K3]. rewrite K3, K2, K1. unfold styledLayout.
    cbn [looks initial doc newDoc runs marks runs_of map app]. reflexivity.
Qed.

Lemma styledLayout_hex (data : FormattedRepoData) (options : PdfOptions) :
  Forall (fun l => is_hex_color (look_color l) = true) (styledLayout data options).
Proof.
  unfold styledLayout.
  constructor; [apply defaultTextColor_hex|].
  constructor; [apply defaultTextColor_hex|].
  apply Forall_app. split.
  - apply Forall_map, Forall_forall. intros p _. apply defaultTextColor_hex.
  - apply Forall_flat_map, Forall_forall. intros f _. unfold fileLooks.
    constructor; [apply defaultTextColor_hex|].
    apply Forall_flat_map, Forall_forall. intros l _.
    apply Forall_map, Forall_forall. intros t _. apply tokenColor_hex.
Qed.

(** X2.  Apart from their positions the runs of the rendered document are
    fixed by the data and the options: the title in bold at size 24, the
    heading of the table of contents in bold at 16, its entries in the
    regular face at the chosen size, each separator in bold at 12, all in
    the default text colour of the theme; each token in the regular face at
    the chosen size and in its adjusted colour; all in the chosen font, and
    all but the tokens at the left margin.
    Every colour a run is drawn in is a hash sign and six hexadecimal
    digits. *)
Theorem runs_styled (data : FormattedRepoData) (options : PdfOptions) :
  exists s,
    render data options initial = Ok (tt, s) /\
    map look (runs (doc s)) = styledLayout data options /\
    Forall (fun r => is_hex_color (r_color r) = true) (runs (doc s)).
Proof.
  destruct (render_styled data options) as ([] & s & Hs & K).
  exists s. split; [exact Hs|]. split; [exact K|].
  pose proof (styledLayout_hex data options) as H.
  unfold looks in K. rewrite <- K in H. rewrite Forall_map in H.
  eapply Forall_impl; [|exact H]. intros r Hr. exact Hr.
Qed.

(** X16.  Whatever the end of [formatRepoForPdf] returns, [generateRepoPdf]
    renders without throwing, and the document has one separator for each
    highlight result that did not fail, in the reordered order, and for no
    other file: a file whose highlight request failed has no section. *)
Theorem assembled_files_rendered (repoName : string)
  (repoFiles : list GitHubFile) (structureData : StructureData)
  (settledResults : list (option HighlightedFile))
  (data : FormattedRepoData) (options : PdfOptions) :
  assembleRepo repoFiles structureData settledResults = Ok data ->
  exists s,
    render data options initial = Ok (tt, s) /\
    generateRepoPdf repoName data options = Ok (output (doc s)) /\
    map r_text (filter (is_site SeparatorSite) (runs (doc s))) =
    map (fun f => splitText (font options) bold 12 (separator f) contentWidth)
        (sortedHighlightedFiles (structure_tableOfContents structureData)
           (pushResults settledResults)).
Proof.
  intro H. destruct (render_layout data options) as ([] & s & Hs & K).
  exists s. split; [exact Hs|].
  split; [unfold generateRepoPdf; rewrite Hs; reflexivity|].
  rewrite separatorKeys_runs. unfold keys in K. rewrite K.
  rewrite separatorKeys_layout. unfold assembleRepo in H.
  destruct (_ && _); [discriminate|]. injection H as <-. reflexivity.
Qed.

(* ------------------------------------------------------------------ *)
(** ** The theme does not move anything *)

Lemma wp2_bind {A1 B1 A2 B2 : Type} (c1 : M St A1) (k1 : A1 -> M St B1)
  (c2 : M St A2) (k2 : A2 -> M St B2)
  (Q : B1 -> St -> B2 -> St -> Prop) (s1 s2 : St) :
  wp2 c1 c2 (fun a1 s1' a2 s2' => wp2 (k1 a1) (k2 a2) Q s1' s2') s1 s2 ->
  wp2 (bind c1 k1) (bind c2 k2) Q s1 s2.
Proof.
  intros (a1 & t1 & a2 & t2 & E1 & E2 & b1 & u1 & b2 & u2 & F1 & F2 & HQ).
  exists b1, u1, b2, u2. unfold bind. rewrite E1, E2. repeat split; assumption.
Qed.

Lemma wp2_of_wp {A B : Type} (c1 : M St A) (c2 : M St B)
  (Q : A -> St -> B -> St -> Prop) (s1 s2 : St) :
  wp c1 (fun a1 s1' => wp c2 (fun a2 s2' => Q a1 s1' a2 s2') s2) s1 ->
  wp2 c1 c2 Q s1 s2.
Proof.
  intros (a1 & t1 & E1 & a2 & t2 & E2 & HQ).
  exists a1, t1, a2, t2. repeat split; assumption.
Qed.

Lemma wp2_mono {A B : Type} (c1 : M St A) (c2 : M St B)
  (Q Q' : A -> St -> B -> St -> Prop) (s1 s2 : St) :
  wp2 c1 c2 Q s1 s2 ->
  (forall a1 t1 a2 t2, Q a1 t1 a2 t2 -> Q' a1 t1 a2 t2) ->
  wp2 c1 c2 Q' s1 s2.
Proof.
  intros (a1 & t1 & a2 & t2 & E1 & E2 & HQ) Himp.
  exists a1, t1, a2, t2. repeat split; auto.
Qed.

Lemma wp2_forEach {A : Type} (R : St -> St -> Prop)
  (f1 f2 : A -> M St unit) (l : list A) :
  (forall a s1 s2, R s1 s2 ->
     wp2 (f1 a) (f2 a) (fun _ t1 _ t2 => R t1 t2) s1 s2) ->
  forall s1 s2, R s1 s2 ->
    wp2 (forEach l f1) (forEach l f2) (fun _ t1 _ t2 => R t1 t2) s1 s2.
Proof.
  intro Hf. induction l as [|a l IH]; intros s1 s2 H; simpl.
  - exists tt, s1, tt, s2. repeat split. exact H.
  - apply wp2_bind. eapply wp2_mono; [apply Hf; exact H|].
    cbv beta. intros u1 t1 u2 t2 Ht. apply IH. exact Ht.
Qed.

Lemma wp_fonted (name : Font) (style : FontStyle) (Q : unit -> St -> Prop)
  (s : St) :
  Q tt (fonted name style s) -> wp (call (doc_setFont name style)) Q s.
Proof.
  exact (wp_setFont name style Q s).
Qed.

Lemma wp_sized (size : Q) (Q : unit -> St -> Prop) (s : St) :
  Q tt (sized size s) -> wp (call (doc_setFontSize size)) Q s.
Proof.
  exact (wp_setFontSize size Q s).
Qed.

Lemma wp_colored (options : PdfOptions) (Q : unit -> St -> Prop) (s : St) :
  Q tt (colored (defaultTextColor options) s) ->
  wp (call (doc_setTextColor (defaultTextColor options))) Q s.
Proof.
  apply wp_setTextColor, defaultTextColor_hex.
Qed.

Lemma wp_filled (options : PdfOptions) (Q : unit -> St -> Prop) (s : St) :
  Q tt (filled options s) -> wp (addPageBackground options) Q s.
Proof.
  intro H. exists tt, (filled options s).
  split; [apply addPageBackground_eq | exact H].
Qed.

Ltac wp_named :=
  cbv beta;
  lazymatch goal with
  | |- wp get_y _ _ => apply wp_get_y
  | |- wp (ask _) _ _ => apply wp_ask
  | |- wp (add_y _) _ _ => apply wp_add_y
  | |- wp (call (doc_text _ _ _ _)) _ _ => apply wp_text; [reflexivity|]
  | |- wp (call (doc_setFont _ _)) _ _ => apply wp_fonted
  | |- wp (call (doc_setFontSize _)) _ _ => apply wp_sized
  | |- wp (call (doc_setTextColor (defaultTextColor _))) _ _ => apply wp_colored
  | |- wp (checkNewPage _ _) _ _ => apply wp_checkNewPage
  | |- wp (addPageBackground _) _ _ => apply wp_filled
  end;
  cbv beta.

(** Runs both programs in step as long as both are at the same call. *)
Ltac wp2_run :=
  repeat first
    [ apply wp2_of_wp; wp_named; wp_named
    | apply wp2_bind; apply wp2_of_wp; wp_named; wp_named ].

Section Theme.

Variable options : PdfOptions.
Variable t : Theme.

Lemma same_layout_fonted (name : Font) (style : FontStyle) (s1 s2 : St) :
  same_layout s1 s2 -> same_layout (fonted name style s1) (fonted name style s2).
Proof.
  intros (H1 & H2 & H3 & H4 & H5 & H6 & H7). repeat split; assumption.
Qed.

Lemma same_layout_sized (size : Q) (s1 s2 : St) :
  same_layout s1 s2 -> same_layout (sized size s1) (sized size s2).
Proof.
  intros (H1 & H2 & H3 & H4 & H5 & H6 & H7). repeat split; assumption.
Qed.

Lemma same_layout_colored (c1 c2 : string) (s1 s2 : St) :
  same_layout s1 s2 -> same_layout (colored c1 s1) (colored c2 s2).
Proof.
  intros (H1 & H2 & H3 & H4 & H5 & H6 & H7). repeat split; assumption.
Qed.

Lemma same_layout_moved (d1 d2 : Q) (s1 s2 : St) :
  d1 = d2 -> same_layout s1 s2 -> same_layout (moved d1 s1) (moved d2 s2).
Proof.
  intros -> (H1 & H2 & H3 & H4 & H5 & H6 & H7). unfold same_layout, moved.
  cbn [doc y trace]. rewrite H1, H6, H7. repeat split; assumption.
Qed.

Lemma same_layout_drawn (site : Site) (t1 t2 : list string) (x1 x2 : Q)
  (s1 s2 : St) :
  t1 = t2 -> x1 = x2 -> same_layout s1 s2 ->
  same_layout (drawn site t1 x1 s1) (drawn site t2 x2 s2).
Proof.
  intros -> -> (H1 & H2 & H3 & H4 & H5 & H6 & H7). unfold same_layout.
  rewrite !drawn_runs, !map_app, H5. unfold place at 2 4.
  cbn [drawn doc y trace currentPage fontName fontStyle docFontSize add_mark
       map r_site r_page r_text r_x r_y r_font r_style r_size].
  rewrite H1, H2, H3, H4, H6. repeat split; assumption.
Qed.

Lemma same_layout_turned (s1 s2 : St) :
  same_layout s1 s2 -> same_layout (turned options s1) (turned (withTheme t options) s2).
Proof.
  intros (H1 & H2 & H3 & H4 & H5 & H6 & H7). unfold same_layout.
  rewrite !turned_runs. cbn [turned doc y trace currentPage fontName fontStyle
                              docFontSize].
  rewrite H1, H7. repeat split; assumption.
Qed.

Lemma same_layout_checked (h1 h2 : Q) (s1 s2 : St) :
  h1 = h2 -> same_layout s1 s2 ->
  same_layout (checked options h1 s1) (checked (withTheme t options) h2 s2).
Proof.
  intros -> H. pose proof H as (_ & _ & _ & _ & _ & Hy & _).
  unfold checked. rewrite Hy.
  destruct (Qgtb (y s2 + h2) (pageHeight - MARGIN));
    [apply same_layout_turned; exact H | exact H].
Qed.

Lemma same_layout_filled (s1 s2 : St) :
  same_layout s1 s2 -> same_layout (filled options s1) (filled (withTheme t options) s2).
Proof.
  intros (H1 & H2 & H3 & H4 & H5 & H6 & H7). unfold same_layout, filled.
  destruct (isDarkMode options), (isDarkMode (withTheme t options));
    unfold with_doc, runs in *; cbn [doc y trace currentPage fontName fontStyle
                                      docFontSize marks];
    rewrite ?runs_of_app; cbn [runs_of]; rewrite ?app_nil_r;
    repeat split; assumption.
Qed.

Lemma same_layout_split (text : string) (w : Q) (s1 s2 : St) :
  same_layout s1 s2 ->
  doc_splitTextToSize text w (doc s1) = doc_splitTextToSize text w (doc s2).
Proof.
  intros (_ & H2 & H3 & H4 & _). unfold doc_splitTextToSize.
  rewrite H2, H3, H4. reflexivity.
Qed.

Lemma same_layout_width (token : HighlightedToken) (s1 s2 : St) :
  same_layout s1 s2 -> widthIn s1 token = widthIn s2 token.
Proof.
  intros (_ & H2 & H3 & H4 & _). unfold widthIn, doc_getTextWidth.
  rewrite H2, H3, H4. reflexivity.
Qed.

Ltac layout :=
  lazymatch goal with
  | |- same_layout (fonted _ _ _) (fonted _ _ _) =>
      apply same_layout_fonted; layout
  | |- same_layout (sized _ _) (sized _ _) =>
      apply same_layout_sized; layout
  | |- same_layout (colored _ _) (colored _ _) =>
      apply same_layout_colored; layout
  | |- same_layout (filled _ _) (filled _ _) =>
      apply same_layout_filled; layout
  | |- same_layout (moved _ _) (moved _ _) =>
      apply same_layout_moved; [layout_eq | layout]
  | |- same_layout (drawn _ _ _ _) (drawn _ _ _ _) =>
      apply same_layout_drawn; [layout_eq | layout_eq | layout]
  | |- same_layout (checked _ _ _) (checked _ _ _) =>
      apply same_layout_checked; [layout_eq | layout]
  | |- same_layout _ _ => assumption
  end
with layout_eq :=
  first
    [ reflexivity
    | apply same_layout_split; layout
    | progress f_equal; layout_eq ].

Lemma placed_same_layout (token : HighlightedToken) (x : Q) (s1 s2 : St) :
  same_layout s1 s2 ->
  fst (placed options token x s1) = fst (placed (withTheme t options) token x s2) /\
  same_layout (snd (placed options token x s1)) (snd (placed (withTheme t options) token x s2)).
Proof.
  intro H. unfold placed. rewrite (same_layout_width token s1 s2 H).
  destruct (wraps x (widthIn s2 token)); cbn [fst snd];
    (split; [reflexivity | layout]).
Qed.

Lemma tokens_same_layout (ts : list HighlightedToken) :
  forall (x : Q) (s1 s2 : St),
    same_layout s1 s2 ->
    wp2 (forEachWith ts (renderToken options) x)
        (forEachWith ts (renderToken (withTheme t options)) x)
        (fun _ t1 _ t2 => same_layout t1 t2) s1 s2.
Proof.
  induction ts as [|tk ts IH]; intros x s1 s2 H; simpl.
  - exists x, s1, x, s2. split; [reflexivity|]. split; [reflexivity|exact H].
  - destruct (placed_same_layout tk x s1 s2 H) as [Hx Hs].
    apply wp2_bind.
    exists (fst (placed options tk x s1)), (snd (placed options tk x s1)),
           (fst (placed (withTheme t options) tk x s2)), (snd (placed (withTheme t options) tk x s2)).
    split; [apply renderToken_placed|]. split; [apply renderToken_placed|].
    rewrite Hx. apply IH. exact Hs.
Qed.

Lemma renderLine_same_layout (line : HighlightedLine) (s1 s2 : St) :
  same_layout s1 s2 ->
  wp2 (renderLine options line) (renderLine (withTheme t options) line)
      (fun _ t1 _ t2 => same_layout t1 t2) s1 s2.
Proof.
  intro H. unfold renderLine.
  apply wp2_bind. apply wp2_of_wp. wp_named. wp_named.
  destruct (tokens line) as [|tk ts]; cbn [List.length Nat.eqb].
  - wp2_run. layout.
  - apply wp2_bind. eapply wp2_mono.
    + apply tokens_same_layout. layout.
    + cbv beta. intros x1 t1 x2 t2 Ht. wp2_run. layout.
Qed.

Lemma renderFile_same_layout (file : HighlightedFile) (s1 s2 : St) :
  same_layout s1 s2 ->
  wp2 (renderFile options file) (renderFile (withTheme t options) file)
      (fun _ t1 _ t2 => same_layout t1 t2) s1 s2.
Proof.
  intro H. unfold renderFile. wp2_run.
  apply wp2_forEach.
  - intros l u1 u2 Hu. apply renderLine_same_layout. exact Hu.
  - layout.
Qed.

Lemma renderTocEntry_same_layout (p : string) (s1 s2 : St) :
  same_layout s1 s2 ->
  wp2 (renderTocEntry options p) (renderTocEntry (withTheme t options) p)
      (fun _ t1 _ t2 => same_layout t1 t2) s1 s2.
Proof.
  intro H. unfold renderTocEntry. wp2_run. layout.
Qed.

Lemma render_same_layout (data : FormattedRepoData) (s1 s2 : St) :
  same_layout s1 s2 ->
  wp2 (render data options) (render data (withTheme t options))
      (fun _ t1 _ t2 => same_layout t1 t2) s1 s2.
Proof.
  intro H. unfold render, renderTitle, renderToc.
  apply wp2_bind. wp2_run.
  apply wp2_bind. wp2_run.
  eapply wp2_mono.
  - apply wp2_forEach.
    + intros p u1 u2 Hu. apply renderTocEntry_same_layout. exact Hu.
    + layout.
  - cbv beta. intros a1 u1 a2 u2 Hu. apply wp2_forEach; [|exact Hu].
    intros f v1 v2 Hv. apply renderFile_same_layout. exact Hv.
Qed.

End Theme.

(** X17.  The theme moves nothing: rendered with the same font, font size
    and line spacing under any two themes, a document has the same number
    of pages and the same runs with the same text, in the same font, on
    the same page and at the same position; only colours and background
    rectangles differ. *)
Theorem theme_keeps_layout (data : FormattedRepoData) (options : PdfOptions)
  (t : Theme) :
  exists s1 s2,
    render data options initial = Ok (tt, s1) /\
    render data (withTheme t options) initial = Ok (tt, s2) /\
    currentPage (doc s1) = currentPage (doc s2) /\
    map place (runs (doc s1)) = map place (runs (doc s2)) /\
    y s1 = y s2.
Proof.
  destruct (render_same_layout options t data initial initial)
    as ([] & s1 & [] & s2 & E1 & E2 & H1 & _ & _ & _ & H5 & H6 & _).
  - repeat split.
  - exists s1, s2. repeat split; assumption.
Qed.

End Renderer.

(* ------------------------------------------------------------------ *)
(** ** The claims on the concrete instance *)

Lemma strict_accepts_hex :
  forall c : string, is_hex_color c = true -> is_hex_color c = true.
Proof.
  intros c H. exact H.
Defined.

Lemma renderToken_wraps_iff_demo :
  0 < fontSize demoOptions /\ 0 < lineSpacing demoOptions /\
  exists x' s' r,
    renderToken a4Height a4Width fixedPitch is_hex_color demoOptions
      wideToken 190 initial = Ok (x', s') /\
    runs (doc s') = runs (doc initial) ++ [r] /\
    (on_new_row initial r <->
     MARGIN < 190 /\ a4Width - MARGIN < 190 + widthIn fixedPitch initial wideToken).
Proof.
  split; [reflexivity|]. split; [reflexivity|].
  destruct (renderToken_wraps_iff a4Height a4Width fixedPitch is_hex_color
              strict_accepts_hex demoOptions wideToken 190 initial
              eq_refl eq_refl)
    as (x' & s' & r & H1 & H2 & _ & H3 & _).
  exists x', s', r. split; [exact H1|]. split; [exact H2 | exact H3].
Defined.

Lemma token_color_rendered_demo :
  exists x' s' r,
    renderToken a4Height a4Width fixedPitch is_hex_color demoOptions
      wideToken MARGIN initial = Ok (x', s') /\
    runs (doc s') = runs (doc initial) ++ [r] /\
    r_color r = defaultTextColor demoOptions.
Proof.
  destruct (token_color_rendered a4Height a4Width fixedPitch is_hex_color
              strict_accepts_hex demoOptions wideToken MARGIN initial)
    as (x' & s' & r & H1 & H2 & _ & H3 & _).
  exists x', s', r. split; [exact H1|]. split; [exact H2|].
  apply H3. reflexivity.
Defined.

Lemma tokens_drawn_whole_demo :
  exists s,
    render a4Height a4Width fixedPitch unsplit is_hex_color demoData
      demoOptions initial = Ok (tt, s) /\
    map r_text (filter (is_site TokenSite) (runs (doc s))) =
    map (fun t => [t]) (tokenTexts demoData).
Proof.
  exact (proj1 (tokens_drawn_whole a4Height a4Width fixedPitch unsplit
                  is_hex_color strict_accepts_hex demoData demoOptions)).
Defined.


Lemma cursor_monotone_demo :
  0 < fontSize demoOptions /\ 0 < lineSpacing demoOptions /\
  exists s,
    render a4Height a4Width fixedPitch unsplit is_hex_color demoData
      demoOptions initial = Ok (tt, s) /\
    Sorted cursor_step (trace s) /\
    hd_error (trace s) = Some (1%nat, MARGIN) /\
    exists l, trace s = l ++ [(currentPage (doc s), y s)].
Proof.
  split; [reflexivity|]. split; [reflexivity|].
  apply (cursor_monotone a4Height a4Width fixedPitch unsplit is_hex_color
           strict_accepts_hex demoData demoOptions); reflexivity.
Defined.

Lemma line_advance_demo :
  exists s',
    renderLine a4Height a4Width fixedPitch is_hex_color demoOptions demoLine
      initial = Ok (tt, s') /\
    (currentPage (doc s') = currentPage (doc initial) ->
     y s' == y initial
             + Qnat (S (rowBreaks a4Width
                          (map (widthIn fixedPitch initial) (tokens demoLine))
                          MARGIN))
               * LINE_HEIGHT demoOptions).
Proof.
  destruct (line_advance a4Height a4Width fixedPitch is_hex_color
              strict_accepts_hex demoOptions demoLine initial)
    as (s' & H1 & _ & _ & H2).
  exists s'. split; [exact H1 | exact H2].
Defined.

Lemma empty_files_render_demo :
  files (mkData "Empty"%string [] []) = [] /\
  exists s,
    render a4Height a4Width fixedPitch unsplit is_hex_color
      (mkData "Empty"%string [] []) demoOptions initial = Ok (tt, s) /\
    generateRepoPdf a4Height a4Width fixedPitch unsplit is_hex_color
      Doc (fun d : Doc => d) "demo"%string (mkData "Empty"%string [] []) demoOptions
    = Ok (doc s) /\
    filter (is_site SeparatorSite) (runs (doc s)) = [].
Proof.
  split; [reflexivity|].
  destruct (empty_files_render a4Height a4Width fixedPitch unsplit is_hex_color
              Doc (fun d : Doc => d) strict_accepts_hex "demo"%string
              (mkData "Empty"%string [] []) demoOptions eq_refl)
    as (s & H1 & H2 & _ & H3 & _).
  exists s. split; [exact H1|]. split; [exact H2 | exact H3].
Defined.




(** The end-to-end scenario of the specification: one page; the title, the
    entry of the table of contents and the separator in this order; then one
    row of three runs at growing horizontal positions. *)
Example demo_render :
  exists s,
    render a4Height a4Width fixedPitch unsplit is_hex_color demoData
      demoOptions initial = Ok (tt, s) /\
    currentPage (doc s) = 1%nat /\
    map (fun r => (r_text r, Qred (r_x r), Qred (r_y r))) (runs (doc s)) =
    [ (["Code Documentation for demo"%string], 15, 15);
      (["Table of Contents"%string], 15, 37);
      (["x.ts"%string], 15, 45);
      (["File: x.ts (typescript)"%string], 15, 2407 # 40);
      (["const"%string], 15, 2807 # 40);
      ([" "%string], 105 # 4, 2807 # 40);
      (["a"%string], 57 # 2, 2807 # 40) ].
Proof.
  eexists. split; [vm_compute; reflexivity|].
  split; vm_compute; reflexivity.
Qed.

(* ------------------------------------------------------------------ *)
(** ** Facts on strings *)

Lemma append_nil_r (s : string) : (s ++ EmptyString)%string = s.
Proof.
  induction s as [|c s IH]; simpl; congruence.
Qed.

Lemma append_assoc (a b c : string) :
  ((a ++ b) ++ c)%string = (a ++ (b ++ c))%string.
Proof.
  induction a as [|x a IH]; simpl; congruence.
Qed.

Lemma length_append (a b : string) :
  String.length (a ++ b) = (String.length a + String.length b)%nat.
Proof.
  induction a as [|x a IH]; simpl; congruence.
Qed.

Lemma startsWith_app (p b : string) : startsWith (p ++ b) p = true.
Proof.
  induction p as [|c p IH]; simpl; [reflexivity|].
  rewrite Ascii.eqb_refl. exact IH.
Qed.

Lemma drop_app (p b : string) : drop (String.length p) (p ++ b) = b.
Proof.
  induction p as [|c p IH]; simpl; [reflexivity | exact IH].
Qed.

Lemma startsWith_true (p : string) :
  forall s, startsWith s p = true -> s = (p ++ drop (String.length p) s)%string.
Proof.
  induction p as [|c p IH]; intros s H; simpl in *; [reflexivity|].
  destruct s as [|b s]; [discriminate|].
  apply andb_true_iff in H. destruct H as [Hc Hp].
  apply Ascii.eqb_eq in Hc. subst b. f_equal. apply IH. exact Hp.
Qed.

Lemma has_app (c : ascii) (a b : string) :
  has c (a ++ b) = has c a || has c b.
Proof.
  induction a as [|x a IH]; simpl; [reflexivity|].
  rewrite IH. apply orb_assoc.
Qed.

Lemma has_drop (c : ascii) (n : nat) :
  forall s, has c s = false -> has c (drop n s) = false.
Proof.
  induction n as [|n IH]; intros s H; simpl; [exact H|].
  destruct s as [|a s]; [reflexivity|].
  simpl in H. apply orb_false_iff in H. apply IH, H.
Qed.

Lemma endsWith_app (pre suf : string) : endsWith (pre ++ suf) suf = true.
Proof.
  induction pre as [|c pre IH]; simpl.
  - destruct suf; cbn [append endsWith]; rewrite String.eqb_refl; reflexivity.
  - rewrite IH. apply orb_true_r.
Qed.

Lemma endsWith_true (suf : string) :
  forall s, endsWith s suf = true -> exists pre, s = (pre ++ suf)%string.
Proof.
  induction s as [|c s IH]; cbn [endsWith]; intro H.
  - rewrite orb_false_r in H. apply String.eqb_eq in H.
    exists EmptyString. exact H.
  - apply orb_true_iff in H. destruct H as [H | H].
    + apply String.eqb_eq in H. exists EmptyString. exact H.
    + destruct (IH H) as [pre ->]. exists (String c pre). reflexivity.
Qed.

Lemma split_nonempty (sep : ascii) (s : string) : split sep s <> [].
Proof.
  destruct s as [|c s]; simpl; [discriminate|].
  destruct (Ascii.eqb c sep); [discriminate|].
  destruct (split sep s); discriminate.
Qed.

Lemma split_concat (sep : ascii) (s : string) :
  String.concat (String sep EmptyString) (split sep s) = s.
Proof.
  induction s as [|c s IH]; [reflexivity|]. simpl.
  destruct (Ascii.eqb_spec c sep) as [-> | Hne].
  - destruct (split sep s) as [|h t] eqn:E;
      [exfalso; exact (split_nonempty sep s E)|].
    rewrite <- IH. reflexivity.
  - destruct (split sep s) as [|h t] eqn:E;
      [exfalso; exact (split_nonempty sep s E)|].
    rewrite <- IH. destruct t as [|h' t]; reflexivity.
Qed.

Lemma split_no_sep (sep : ascii) (s : string) :
  Forall (fun piece => has sep piece = false) (split sep s).
Proof.
  induction s as [|c s IH]; simpl.
  - repeat constructor.
  - destruct (Ascii.eqb_spec c sep) as [-> | Hne].
    + constructor; [reflexivity | exact IH].
    + destruct (split sep s) as [|h t]; [repeat constructor|].
      * simpl. rewrite orb_false_r. apply Ascii.eqb_neq. exact Hne.
      * inversion IH as [|? ? Hh Ht]; subst. constructor; [|exact Ht].
        simpl. rewrite Hh, orb_false_r. apply Ascii.eqb_neq. exact Hne.
Qed.

Lemma concat_last_suffix (sep : string) (l : list string) :
  l <> [] ->
  exists pre, String.concat sep l = (pre ++ last l EmptyString)%string.
Proof.
  induction l as [|a l IH]; intro Hne; [contradiction|].
  destruct l as [|b l].
  - exists EmptyString. reflexivity.
  - destruct IH as [pre Hpre]; [discriminate|].
    exists (a ++ sep ++ pre)%string.
    change (String.concat sep (a :: b :: l))
      with (a ++ sep ++ String.concat sep (b :: l))%string.
    change (last (a :: b :: l) EmptyString) with (last (b :: l) EmptyString).
    rewrite Hpre, !append_assoc. reflexivity.
Qed.

Lemma last_segment_suffix (sep : ascii) (s : string) :
  endsWith s (last (split sep s) EmptyString) = true.
Proof.
  destruct (concat_last_suffix (String sep EmptyString) (split sep s)
              (split_nonempty sep s)) as [pre H].
  rewrite split_concat in H. rewrite H at 1. apply endsWith_app.
Qed.

(* ------------------------------------------------------------------ *)
(** ** The GitHub service *)

(** X11.  In the filter of [getRepoFiles] the second test on the path, that
    its last segment is one of [TEXT_FILE_EXTENSIONS], never admits a file
    that the first test, that the path ends with one of them, rejects: the
    filter keeps exactly the blobs with a size other than 0 and below
    [MAX_FILE_SIZE_BYTES] whose lower-cased path ends with an entry of the
    list. *)
Theorem isTextFile_by_suffix (toLowerCase : string -> string)
  (item : GitHubTreeItem) :
  isTextFile toLowerCase item =
  match tree_type item with blob => true | _ => false end
  && match tree_size item with
     | Some n => negb (n =? 0)%Z && (n <? MAX_FILE_SIZE_BYTES)%Z
     | None => false
     end
  && existsb (fun ext => endsWith (toLowerCase (tree_path item)) ext)
             TEXT_FILE_EXTENSIONS.
Proof.
  unfold isTextFile. f_equal.
  set (p := toLowerCase (tree_path item)).
  generalize TEXT_FILE_EXTENSIONS. intro exts.
  destruct (existsb (fun ext => endsWith p ext) exts) eqn:E1; [reflexivity|].
  destruct (existsb (String.eqb (last (split "/" p) EmptyString)) exts) eqn:E2;
    [|reflexivity].
  exfalso. apply existsb_exists in E2. destruct E2 as (ext & Hin & Heq).
  apply String.eqb_eq in Heq.
  assert (Hc : existsb (fun ext => endsWith p ext) exts = true).
  { apply existsb_exists. exists ext. split; [exact Hin|].
    rewrite <- Heq. apply last_segment_suffix. }
  congruence.
Qed.

Lemma firstn_filter_nil {A : Type} (f : A -> bool) (n : nat) (l : list A) :
  (0 < n)%nat -> (firstn n (filter f l) = [] <-> Forall (fun a => f a = false) l).
Proof.
  intro Hn. destruct n as [|n]; [lia|]. split.
  - intro H. destruct (filter f l) as [|a l'] eqn:E; [|discriminate].
    apply Forall_forall. intros a Ha. destruct (f a) eqn:Ef; [|reflexivity].
    exfalso. assert (Hin : In a (filter f l)) by (apply filter_In; auto).
    rewrite E in Hin. exact Hin.
  - intro H. replace (filter f l) with (@nil A); [reflexivity|].
    symmetry. induction H as [|a l Ha _ IH]; simpl; [reflexivity|].
    rewrite Ha. exact IH.
Qed.

(** X12.  The selection of [getRepoFiles] throws exactly when no item of
    the tree passes the filter.  Otherwise it yields the first items that
    pass, in tree order, at most [MAX_FILES_TO_PROCESS] of them and at
    least one; each is a blob of the tree with a size other than 0 and
    below [MAX_FILE_SIZE_BYTES]; nothing is left out when no more than
    [MAX_FILES_TO_PROCESS] items pass. *)
Theorem selectTextFiles_spec (toLowerCase : string -> string)
  (items : list GitHubTreeItem) :
  ((exists msg, selectTextFiles toLowerCase items = Thrown msg) <->
   Forall (fun i => isTextFile toLowerCase i = false) items) /\
  (forall l, selectTextFiles toLowerCase items = Ok l ->
     l <> [] /\ (List.length l <= MAX_FILES_TO_PROCESS)%nat /\
     (exists rest, filter (isTextFile toLowerCase) items = l ++ rest) /\
     ((List.length (filter (isTextFile toLowerCase) items)
       <= MAX_FILES_TO_PROCESS)%nat ->
      l = filter (isTextFile toLowerCase) items) /\
     Forall (fun i => In i items /\ tree_type i = blob /\
                      exists n, tree_size i = Some n /\ n <> 0%Z /\
                                (n < MAX_FILE_SIZE_BYTES)%Z) l).
Proof.
  unfold selectTextFiles, textFiles.
  set (ok := filter (isTextFile toLowerCase) items).
  assert (Hnil : firstn MAX_FILES_TO_PROCESS ok = [] <->
                 Forall (fun i => isTextFile toLowerCase i = false) items).
  { apply firstn_filter_nil. unfold MAX_FILES_TO_PROCESS. lia. }
  split.
  - destruct (firstn MAX_FILES_TO_PROCESS ok) as [|a l] eqn:E; cbn [List.length Nat.eqb].
    + split; [intros _; apply Hnil; reflexivity | intros _; eexists; reflexivity].
    + split; [intros [msg H]; discriminate|].
      intro H. apply Hnil in H. discriminate.
  - intros l H.
    destruct (firstn MAX_FILES_TO_PROCESS ok) as [|a l'] eqn:E;
      cbn [List.length Nat.eqb] in H; [discriminate|].
    injection H as <-. rewrite <- E.
    split; [rewrite E; discriminate|].
    split; [apply firstn_le_length|].
    split; [exists (skipn MAX_FILES_TO_PROCESS ok); symmetry;
            apply firstn_skipn|].
    split; [intro Hlen; apply firstn_all2; exact Hlen|].
    apply Forall_forall. intros i Hi.
    assert (Hin : In i ok).
    { rewrite <- (firstn_skipn MAX_FILES_TO_PROCESS ok).
      apply in_or_app. left. exact Hi. }
    apply filter_In in Hin. destruct Hin as [Hitem Hok].
    split; [exact Hitem|]. unfold isTextFile in Hok.
    apply andb_true_iff in Hok. destruct Hok as [Hok _].
    apply andb_true_iff in Hok. destruct Hok as [Hty Hsz].
    split; [destruct (tree_type i); [reflexivity | discriminate | discriminate]|].
    destruct (tree_size i) as [n|]; [|discriminate].
    exists n. split; [reflexivity|].
    apply andb_true_iff in Hsz. destruct Hsz as [H0 Hmax].
    apply negb_true_iff, Z.eqb_neq in H0. apply Z.ltb_lt in Hmax.
    split; assumption.
Qed.

Lemma replaceFirst_absent (pat rep : string) :
  forall s, includes s pat = false -> replaceFirst pat rep s = s.
Proof.
  induction s as [|c s IH]; cbn [includes replaceFirst]; intro H;
    apply orb_false_iff in H; destruct H as [Hs Hr]; rewrite Hs.
  - reflexivity.
  - rewrite (IH Hr). reflexivity.
Qed.

Lemma replaceFirst_first (pat rep b : string) :
  forall a,
    (forall a' b', (a ++ pat ++ b)%string = (a' ++ pat ++ b')%string ->
                   (String.length a <= String.length a')%nat) ->
    replaceFirst pat rep (a ++ pat ++ b) = (a ++ rep ++ b)%string.
Proof.
  induction a as [|c a IH]; intro Hmin.
  - cbn [append]. destruct (pat ++ b)%string as [|x r] eqn:E;
      cbn [replaceFirst]; rewrite <- E, startsWith_app, drop_app; reflexivity.
  - cbn [append replaceFirst].
    destruct (startsWith (String c (a ++ pat ++ b)) pat) eqn:Hs.
    + exfalso. apply startsWith_true in Hs.
      specialize (Hmin EmptyString _ Hs). simpl in Hmin. lia.
    + f_equal. apply IH. intros a' b' E.
      assert (H : (String.length (String c a) <= String.length (String c a'))%nat).
      { apply (Hmin (String c a') b'). cbn [append]. rewrite E. reflexivity. }
      simpl in H. lia.
Qed.

Lemma replaceFirst_has (c : ascii) (pat rep : string) :
  has c rep = false ->
  forall s, has c s = false -> has c (replaceFirst pat rep s) = false.
Proof.
  intro Hrep. induction s as [|a s IH]; cbn [replaceFirst]; intro H.
  - destruct (startsWith EmptyString pat); [|reflexivity].
    rewrite has_app, Hrep. apply has_drop. reflexivity.
  - destruct (startsWith (String a s) pat).
    + rewrite has_app, Hrep. apply has_drop. exact H.
    + simpl in *. apply orb_false_iff in H. destruct H as [Ha Hs].
      rewrite Ha. apply IH. exact Hs.
Qed.

(** X13.  When [parseRepoUrl] returns a repository, the host name of the
    URL is exactly [github.com]; the owner is the first and the repository
    comes from the second non-empty segment of the path; the owner is not
    empty and neither name holds a slash.  The repository name is that
    segment with its first [.git] removed, wherever it stands: the segment
    itself when it holds no [.git], and otherwise what is before and what
    is after the first occurrence, joined. *)
Theorem parseRepoUrl_spec (parseURL : string -> option (string * string))
  (url : string) (ref : RepoRef) :
  parseRepoUrl parseURL url = Some ref ->
  exists pathname segment rest,
    parseURL url = Some ("github.com"%string, pathname) /\
    filter (fun p => negb (String.eqb p EmptyString)) (split "/" pathname)
    = owner ref :: segment :: rest /\
    owner ref <> EmptyString /\
    has "/" (owner ref) = false /\ has "/" (repo ref) = false /\
    (includes segment ".git" = false -> repo ref = segment) /\
    (forall a b,
        segment = (a ++ ".git" ++ b)%string ->
        (forall a' b', segment = (a' ++ ".git" ++ b')%string ->
                       (String.length a <= String.length a')%nat) ->
        repo ref = (a ++ b)%string).
Proof.
  unfold parseRepoUrl. destruct (parseURL url) as [[hostname pathname]|];
    [|discriminate].
  destruct (String.eqb_spec hostname "github.com") as [-> | _];
    cbn [negb]; [|discriminate].
  remember (filter (fun p => negb (String.eqb p EmptyString))
                   (split "/" pathname)) as parts eqn:Eparts.
  assert (Hparts : Forall (fun p => p <> EmptyString /\ has "/" p = false) parts).
  { apply Forall_forall. intros p Hp. rewrite Eparts in Hp.
    apply filter_In in Hp. destruct Hp as [Hin Hne]. split.
    - intro E. subst p. discriminate Hne.
    - pose proof (split_no_sep "/" pathname) as Hs.
      rewrite Forall_forall in Hs. apply Hs. exact Hin. }
  destruct parts as [|o [|r rest]]; cbn [List.length Nat.ltb Nat.leb];
    try discriminate.
  intro H. injection H as <-. cbn [owner repo].
  inversion Hparts as [|? ? [Ho1 Ho2] Hparts']; subst.
  inversion Hparts' as [|? ? [Hr1 Hr2] _]; subst.
  exists pathname, r, rest. split; [reflexivity|].
  split; [symmetry; exact Eparts|].
  split; [exact Ho1|]. split; [exact Ho2|].
  split; [apply replaceFirst_has; [reflexivity | exact Hr2]|].
  split; [apply replaceFirst_absent|].
  intros a b -> Hmin. apply (replaceFirst_first ".git" EmptyString b a Hmin).
Qed.

(* ------------------------------------------------------------------ *)
(** ** The application *)








(** X15.  The errors the services raise on purpose reach the user under
    their own title: a 404 of the GitHub API as "Repository Not Found", a
    403 as "Rate Limit Exceeded", the failure of every highlight request as
    "AI Processing Error", an unparsable URL as "Invalid URL"; a tree
    without any text file is reported as an unexpected error with the
    message of the service word for word. *)
Theorem service_errors_classified (toLowerCase : string -> string) :
  (forall s, string_forallb is7bit s = true ->
             toLowerCase s = string_map lowerAscii s) ->
  (forall statusText,
      error_title (classifyError toLowerCase
                     (fetchGitHubAPI_error 404 statusText))
      = "Repository Not Found"%string /\
      error_title (classifyError toLowerCase
                     (fetchGitHubAPI_error 403 statusText))
      = "Rate Limit Exceeded"%string) /\
  (forall repoFiles structureData settledResults msg,
      assembleRepo repoFiles structureData settledResults = Thrown msg ->
      error_title (classifyError toLowerCase msg)
      = "AI Processing Error"%string) /\
  (forall items msg,
      selectTextFiles toLowerCase items = Thrown msg ->
      classifyError toLowerCase msg
      = {| error_title := "An Unexpected Error Occurred";
           error_message := msg |}) /\
  error_title (classifyError toLowerCase "Invalid GitHub repository URL.")
  = "Invalid URL"%string.
Proof.
  intro Hlower. split; [|split; [|split]].
  - intro statusText. unfold classifyError, fetchGitHubAPI_error.
    cbn [Z.eqb Pos.eqb]. rewrite !Hlower by reflexivity. split; reflexivity.
  - intros repoFiles sd settled msg. unfold assembleRepo.
    destruct (_ && _); [|discriminate]. intro H. injection H as <-.
    unfold classifyError. rewrite Hlower by reflexivity. reflexivity.
  - intros items msg. unfold selectTextFiles.
    destruct (_ =? _)%nat; [|discriminate]. intro H. injection H as <-.
    unfold classifyError. rewrite Hlower by reflexivity. reflexivity.
  - unfold classifyError. rewrite Hlower by reflexivity. reflexivity.
Qed.

(* ------------------------------------------------------------------ *)
(** ** The Gemini service *)

Lemma insert_filter_key {A : Type} (k : A -> Z) (v : Z) (a : A) (l : list A) :
  filter (fun x => (k x =? v)%Z) (insert (fun x z => (k x - k z)%Z) a l)
  = if (k a =? v)%Z then a :: filter (fun x => (k x =? v)%Z) l
    else filter (fun x => (k x =? v)%Z) l.
Proof.
  induction l as [|b l IH]; cbn [insert filter].
  - reflexivity.
  - destruct (Z.leb_spec (k a - k b) 0) as [Hle | Hgt]; cbn [filter].
    + reflexivity.
    + rewrite IH.
      destruct (Z.eqb_spec (k a) v) as [Ea | Ea];
        destruct (Z.eqb_spec (k b) v) as [Eb | Eb]; try reflexivity.
      exfalso. lia.
Qed.

Lemma sort_filter_key {A : Type} (k : A -> Z) (v : Z) (l : list A) :
  filter (fun x => (k x =? v)%Z) (sort (fun x z => (k x - k z)%Z) l)
  = filter (fun x => (k x =? v)%Z) l.
Proof.
  induction l as [|a l IH]; cbn [sort filter]; [reflexivity|].
  rewrite insert_filter_key, IH. reflexivity.
Qed.

Lemma sort_fixed {A : Type} (k : A -> Z) (l : list A) :
  StronglySorted (fun a b => (k a <= k b)%Z) l ->
  sort (fun x z => (k x - k z)%Z) l = l.
Proof.
  intro Hs. induction Hs as [|a l Hs IH Hf]; cbn [sort]; [reflexivity|].
  rewrite IH. destruct l as [|b l]; cbn [insert]; [reflexivity|].
  inversion Hf as [|? ? Hab _]; subst.
  destruct (Z.leb_spec (k a - k b) 0); [reflexivity | lia].
Qed.

(** X8.  The reordering of [formatRepoForPdf] loses, adds and alters no
    file; its result is ordered by the position of the path in the table of
    contents; files at the same position, those with the same path and
    those the table does not list, keep their arrival order; and reordering
    a second time changes nothing. *)
Theorem sortedHighlightedFiles_stable (toc : list string)
  (fs : list HighlightedFile) :
  Permutation (sortedHighlightedFiles toc fs) fs /\
  StronglySorted (fun a b => (indexOf toc (path a) <= indexOf toc (path b))%Z)
                 (sortedHighlightedFiles toc fs) /\
  (forall i : Z,
      filter (fun f => (indexOf toc (path f) =? i)%Z)
             (sortedHighlightedFiles toc fs)
      = filter (fun f => (indexOf toc (path f) =? i)%Z) fs) /\
  sortedHighlightedFiles toc (sortedHighlightedFiles toc fs)
  = sortedHighlightedFiles toc fs.
Proof.
  unfold sortedHighlightedFiles, compareByToc.
  split; [apply sort_perm|].
  split; [apply (sort_sorted (fun f => indexOf toc (path f)))|].
  split; [intro i; apply (sort_filter_key (fun f => indexOf toc (path f)))|].
  apply (sort_fixed (fun f => indexOf toc (path f))).
  apply (sort_sorted (fun f => indexOf toc (path f))).
Qed.

Lemma pushResults_length (settled : list (option HighlightedFile)) :
  (List.length (pushResults settled) <= List.length settled)%nat.
Proof.
  induction settled as [|[f|] l IH]; simpl; lia.
Qed.

Lemma pushResults_nil (settled : list (option HighlightedFile)) :
  pushResults settled = [] <-> Forall (fun r => r = None) settled.
Proof.
  induction settled as [|[f|] l IH]; simpl.
  - split; constructor.
  - split; [discriminate | intro H; inversion H; discriminate].
  - rewrite IH. split; [constructor; auto | intro H; inversion H; assumption].
Qed.

Lemma pushResults_In (settled : list (option HighlightedFile))
  (f : HighlightedFile) :
  In f (pushResults settled) <-> In (Some f) settled.
Proof.
  induction settled as [|[g|] l IH]; simpl.
  - reflexivity.
  - rewrite IH. split; (intros [H | H]; [left; congruence | right; exact H]).
  - rewrite IH. split; [auto | intros [H | H]; [discriminate | exact H]].
Qed.

(** X9.  With one settled result per file, the end of [formatRepoForPdf]
    throws exactly when there is a file and every highlight request failed.
    Otherwise it returns the title and the table of contents of the parsed
    structure unchanged, and as files exactly the results that did not
    fail, reordered: no file more than was asked for, and at least one
    when one was asked for. *)
Theorem assembleRepo_spec (repoFiles : list GitHubFile)
  (structureData : StructureData)
  (settledResults : list (option HighlightedFile)) :
  List.length settledResults = List.length repoFiles ->
  ((exists msg, assembleRepo repoFiles structureData settledResults = Thrown msg)
   <-> repoFiles <> [] /\ Forall (fun r => r = None) settledResults) /\
  (forall data,
      assembleRepo repoFiles structureData settledResults = Ok data ->
      title data = structure_title structureData /\
      tableOfContents data = structure_tableOfContents structureData /\
      Permutation (files data) (pushResults settledResults) /\
      (forall f, In f (files data) <-> In (Some f) settledResults) /\
      (List.length (files data) <= List.length repoFiles)%nat /\
      (repoFiles <> [] -> files data <> [])).
Proof.
  intro Hlen. unfold assembleRepo.
  pose proof (pushResults_nil settledResults) as Hnil.
  pose proof (pushResults_length settledResults) as Hle.
  pose proof (sort_perm (compareByToc (structure_tableOfContents structureData))
                (pushResults settledResults)) as Hperm.
  fold (sortedHighlightedFiles (structure_tableOfContents structureData)
          (pushResults settledResults)) in Hperm.
  destruct (pushResults settledResults) as [|f fs] eqn:E;
    destruct repoFiles as [|g gs]; cbn [List.length Nat.eqb Nat.ltb Nat.leb andb].
  - split.
    + split; [intros [msg H]; discriminate | intros [H _]; contradiction].
    + intros data H. injection H as <-.
      cbn [title tableOfContents files sortedHighlightedFiles sort].
      split; [reflexivity|]. split; [reflexivity|]. split; [constructor|].
      split; [|split].
      * intro h. rewrite <- pushResults_In, E. reflexivity.
      * simpl. lia.
      * intro H. contradiction.
  - split.
    + split; [intros _; split; [discriminate | apply Hnil; reflexivity]
             | intros _; eexists; reflexivity].
    + intros data H. discriminate.
  - exfalso. simpl in *. lia.
  - split.
    + split; [intros [msg H]; discriminate|].
      intros [_ H]. apply Hnil in H. discriminate.
    + intros data H. injection H as <-. cbn [title tableOfContents files].
      split; [reflexivity|]. split; [reflexivity|]. split; [exact Hperm|].
      split; [|split].
      * intro h. rewrite <- pushResults_In, E. split.
        -- apply Permutation_in. exact Hperm.
        -- apply Permutation_in. apply Permutation_sym. exact Hperm.
      * apply Permutation_length in Hperm. rewrite Hperm. simpl in *. lia.
      * intros _ Hc. rewrite Hc in Hperm.
        apply Permutation_nil in Hperm. discriminate.
Qed.

Lemma has_false_get (c : ascii) :
  forall s n, has c s = false -> String.get n s <> Some c.
Proof.
  induction s as [|a s IH]; intros n H; simpl in *; [discriminate|].
  apply orb_false_iff in H. destruct H as [Ha Hs].
  destruct n as [|n]; [|apply IH; exact Hs].
  intro E. injection E as ->. rewrite Ascii.eqb_refl in Ha. discriminate.
Qed.

Lemma get_length (s : string) :
  forall n a, String.get n s = Some a -> (n < String.length s)%nat.
Proof.
  induction s as [|b s IH]; intros n a H; simpl in *; [discriminate|].
  destruct n as [|n]; [lia|]. specialize (IH n a H). lia.
Qed.

Lemma substring_length (s : string) :
  forall n m, (n + m <= String.length s)%nat ->
              String.length (String.substring n m s) = m.
Proof.
  induction s as [|b s IH]; intros n m H; simpl in *.
  - destruct n, m; simpl in *; try reflexivity; lia.
  - destruct n as [|n].
    + destruct m as [|m]; [reflexivity|]. simpl. f_equal. apply IH. simpl. lia.
    + apply IH. lia.
Qed.

Lemma indexOfCharFrom_spec (c : ascii) (s : string) :
  forall i : Z,
    (indexOfCharFrom i c s = (-1)%Z /\ has c s = false) \/
    (exists n, indexOfCharFrom i c s = (i + Z.of_nat n)%Z /\
               String.get n s = Some c /\
               forall m, (m < n)%nat -> String.get m s <> Some c).
Proof.
  induction s as [|a s IH]; intro i; simpl.
  - left. split; reflexivity.
  - destruct (Ascii.eqb_spec a c) as [-> | Hne].
    + right. exists 0%nat. split; [simpl; lia|]. split; [reflexivity|].
      intros m Hm. lia.
    + destruct (IH (i + 1)%Z) as [[H1 H2] | (n & H1 & H2 & H3)].
      * left. split; assumption.
      * right. exists (S n). split; [rewrite H1; lia|]. split; [exact H2|].
        intros [|m] Hm; [intro E; injection E as E; contradiction|].
        apply H3. lia.
Qed.

Lemma lastIndexOfCharFrom_spec (c : ascii) (s : string) :
  forall i : Z,
    (0 <= i)%Z ->
    (lastIndexOfCharFrom i c s = (-1)%Z /\ has c s = false) \/
    (exists n, lastIndexOfCharFrom i c s = (i + Z.of_nat n)%Z /\
               String.get n s = Some c /\
               forall m, (n < m)%nat -> String.get m s <> Some c).
Proof.
  induction s as [|a s IH]; intros i Hi; cbn [lastIndexOfCharFrom has String.get].
  - left. split; reflexivity.
  - destruct (IH (i + 1)%Z ltac:(lia)) as [[H1 H2] | (n & H1 & H2 & H3)].
    + rewrite H1. cbn [Z.leb Z.compare]. rewrite H2, orb_false_r.
      destruct (Ascii.eqb_spec a c) as [-> | Hne].
      * right. exists 0%nat. split; [simpl; lia|]. split; [reflexivity|].
        intros [|m] Hm; [lia|]. apply has_false_get. exact H2.
      * left. split; reflexivity.
    + rewrite H1.
      destruct (Z.leb_spec 0 (i + 1 + Z.of_nat n)) as [_ | Hneg]; [|lia].
      right. exists (S n). split; [lia|]. split; [exact H2|].
      intros [|m] Hm; [lia|]. apply H3. lia.
Qed.

Lemma js_substring_in_range (a b : nat) (s : string) :
  (a <= b)%nat -> (b <= String.length s)%nat ->
  js_substring (Z.of_nat a) (Z.of_nat b) s = String.substring a (b - a) s.
Proof.
  intros Hab Hb. unfold js_substring. cbv zeta.
  rewrite (Z.max_l (Z.of_nat a) 0) by lia.
  rewrite (Z.max_l (Z.of_nat b) 0) by lia.
  rewrite (Z.min_l (Z.of_nat a)) by lia.
  rewrite (Z.min_l (Z.of_nat b)) by lia.
  rewrite Z.min_l, Z.max_r by lia.
  rewrite <- Nat2Z.inj_sub by lia. rewrite !Nat2Z.id. reflexivity.
Qed.

(** X10.  [cleanupJsonResponse] returns the fenced group when the fence
    pattern matches with a group that is not empty.  Otherwise, when the
    text has a first opening brace and its last closing brace comes later,
    it returns the piece of the text from the one to the other, which
    begins with the opening and ends with the closing brace; in every
    other case, among them a closing brace before the only opening one,
    it returns the text as it is. *)
Theorem cleanupJsonResponse_spec (fenced : string -> option string)
  (text : string) :
  (forall group, fenced text = Some group -> group <> EmptyString ->
                 cleanupJsonResponse fenced text = group) /\
  (fenced text = None \/ fenced text = Some EmptyString ->
   (cleanupJsonResponse fenced text = text /\
    (has "{" text = false \/
     (lastIndexOfChar "}" text <= indexOfChar "{" text)%Z)) \/
   (exists n m,
       (n < m)%nat /\
       String.get n text = Some "{"%char /\
       (forall i, (i < n)%nat -> String.get i text <> Some "{"%char) /\
       String.get m text = Some "}"%char /\
       (forall i, (m < i)%nat -> String.get i text <> Some "}"%char) /\
       cleanupJsonResponse fenced text = String.substring n (m - n + 1) text /\
       String.length (cleanupJsonResponse fenced text) = (m - n + 1)%nat /\
       String.get 0 (cleanupJsonResponse fenced text) = Some "{"%char /\
       String.get (m - n) (cleanupJsonResponse fenced text) = Some "}"%char)).
Proof.
  unfold cleanupJsonResponse. cbv zeta. split.
  - intros group -> Hne.
    destruct (String.eqb_spec group EmptyString); [contradiction | reflexivity].
  - intro Hf.
    match goal with
    | |- context [match fenced text with Some _ => _ | None => ?fb end] =>
        set (fallback := fb);
        replace (match fenced text with
                 | Some group =>
                     if negb (String.eqb group EmptyString) then group
                     else fallback
                 | None => fallback
                 end) with fallback
          by (destruct Hf as [-> | ->]; reflexivity)
    end.
    subst fallback. unfold indexOfChar, lastIndexOfChar.
    destruct (indexOfCharFrom_spec "{" text 0)
      as [[F1 F2] | (n & F1 & F2 & F3)].
    + left. rewrite F1. cbn [Z.eqb negb andb]. split; [reflexivity|].
      left. exact F2.
    + destruct (lastIndexOfCharFrom_spec "}" text 0 ltac:(lia))
        as [[L1 L2] | (m & L1 & L2 & L3)].
      * left. rewrite F1, L1.
        destruct (Z.ltb_spec (0 + Z.of_nat n) (-1)); [lia|].
        rewrite andb_false_r. split; [reflexivity | right; lia].
      * rewrite F1, L1.
        destruct (Z.ltb_spec (0 + Z.of_nat n) (0 + Z.of_nat m)) as [Hlt | Hge].
        -- right. exists n, m.
           assert (Hnm : (n < m)%nat) by lia.
           pose proof (get_length text m _ L2) as Hm.
           assert (E : js_substring (0 + Z.of_nat n) (0 + Z.of_nat m + 1) text
                       = String.substring n (m - n + 1) text).
           { replace (0 + Z.of_nat n)%Z with (Z.of_nat n) by lia.
             replace (0 + Z.of_nat m + 1)%Z with (Z.of_nat (S m)) by lia.
             rewrite js_substring_in_range by lia.
             f_equal. lia. }
           destruct (Z.eqb_spec (Z.of_nat n) (-1)); [lia|].
           replace (0 + Z.of_nat n =? -1)%Z with false
             by (symmetry; apply Z.eqb_neq; lia).
           cbn [negb andb]. rewrite E.
           split; [exact Hnm|]. split; [exact F2|]. split; [exact F3|].
           split; [exact L2|]. split; [exact L3|]. split; [reflexivity|].
           split; [apply substring_length; lia|].
           split.
           ++ rewrite String.substring_correct1 by lia. exact F2.
           ++ rewrite String.substring_correct1 by lia.
              replace (m - n + n)%nat with m by lia. exact L2.
        -- left. rewrite andb_false_r. split; [reflexivity | right; lia].
Qed.

(* ------------------------------------------------------------------ *)
(** ** The further properties on the concrete instance *)

Lemma checkNewPage_twice_demo :
  MARGIN + 20 <= a4Height - MARGIN /\
  bind (checkNewPage a4Height a4Width is_hex_color demoOptions 20)
       (fun _ => checkNewPage a4Height a4Width is_hex_color demoOptions 20)
       initial
  = checkNewPage a4Height a4Width is_hex_color demoOptions 20 initial.
Proof.
  assert (H : MARGIN + 20 <= a4Height - MARGIN) by discriminate.
  split; [exact H|].
  exact (proj1 (checkNewPage_twice a4Height a4Width is_hex_color
                  strict_accepts_hex demoOptions 20 initial) H).
Defined.

Lemma demoLine_widths :
  forall t, In t (tokens demoLine) -> 0 <= widthIn fixedPitch initial t.
Proof.
  intros t [<- | [<- | [<- | []]]]; discriminate.
Defined.

Lemma line_tokens_within_margins_demo :
  (forall t, In t (tokens demoLine) -> 0 <= widthIn fixedPitch initial t) /\
  exists s' rs,
    renderLine a4Height a4Width fixedPitch is_hex_color demoOptions demoLine
      initial = Ok (tt, s') /\
    runs (doc s') = runs (doc initial) ++ rs /\
    Forall2 (fun t r => r_text r = [text t] /\ MARGIN <= r_x r /\
               (MARGIN < r_x r ->
                r_x r + widthIn fixedPitch initial t <= a4Width - MARGIN))
            (tokens demoLine) rs.
Proof.
  split; [exact demoLine_widths|].
  exact (line_tokens_within_margins a4Height a4Width fixedPitch is_hex_color
           strict_accepts_hex demoOptions demoLine initial demoLine_widths).
Defined.

Lemma fitting_line_one_row_demo :
  (forall t, In t (tokens demoLine) -> 0 <= widthIn fixedPitch initial t) /\
  Qsum (map (widthIn fixedPitch initial) (tokens demoLine))
  <= contentWidth a4Width /\
  exists s' rs,
    renderLine a4Height a4Width fixedPitch is_hex_color demoOptions demoLine
      initial = Ok (tt, s') /\
    runs (doc s') = runs (doc initial) ++ rs /\
    map r_x rs = offsets MARGIN (map (widthIn fixedPitch initial) (tokens demoLine)).
Proof.
  assert (H : Qsum (map (widthIn fixedPitch initial) (tokens demoLine))
              <= contentWidth a4Width) by discriminate.
  split; [exact demoLine_widths|]. split; [exact H|].
  destruct (fitting_line_one_row a4Height a4Width fixedPitch is_hex_color
              strict_accepts_hex demoOptions demoLine initial
              demoLine_widths H)
    as (s0 & s' & rs & _ & H1 & H2 & _ & H3 & _).
  exists s', rs. split; [exact H1|]. split; [exact H2 | exact H3].
Defined.

Lemma pages_filled_demo :
  exists s,
    render a4Height a4Width fixedPitch unsplit is_hex_color demoData
      demoOptions initial = Ok (tt, s) /\
    rects_of (marks (doc s)) = [].
Proof.
  destruct (pages_filled a4Height a4Width fixedPitch unsplit is_hex_color
              strict_accepts_hex demoData demoOptions) as (s & H1 & _ & H2).
  exists s. split; [exact H1 | exact (H2 eq_refl)].
Defined.

Lemma run_pages_ordered_demo :
  exists s,
    render a4Height a4Width fixedPitch unsplit is_hex_color demoData
      demoOptions initial = Ok (tt, s) /\
    StronglySorted le (map r_page (runs (doc s))) /\
    Forall (fun r => (1 <= r_page r <= currentPage (doc s))%nat) (runs (doc s)).
Proof.
  exact (run_pages_ordered a4Height a4Width fixedPitch unsplit is_hex_color
           strict_accepts_hex demoData demoOptions).
Defined.

Lemma theme_keeps_layout_demo :
  exists s1 s2,
    render a4Height a4Width fixedPitch unsplit is_hex_color demoData
      demoOptions initial = Ok (tt, s1) /\
    render a4Height a4Width fixedPitch unsplit is_hex_color demoData
      (withTheme dark demoOptions) initial = Ok (tt, s2) /\
    currentPage (doc s1) = currentPage (doc s2) /\
    map place (runs (doc s1)) = map place (runs (doc s2)) /\
    y s1 = y s2.
Proof.
  exact (theme_keeps_layout a4Height a4Width fixedPitch unsplit is_hex_color
           strict_accepts_hex demoData demoOptions dark).
Defined.

Lemma runs_styled_demo :
  exists s,
    render a4Height a4Width fixedPitch unsplit is_hex_color demoData
      demoOptions initial = Ok (tt, s) /\
    map look (runs (doc s)) = styledLayout a4Width unsplit demoData demoOptions /\
    Forall (fun r => is_hex_color (r_color r) = true) (runs (doc s)).
Proof.
  exact (runs_styled a4Height a4Width fixedPitch unsplit is_hex_color
           strict_accepts_hex demoData demoOptions).
Defined.

Lemma assembled_files_rendered_demo :
  assembleRepo demoRepoFiles demoStructure demoSettled = Ok demoAssembled /\
  exists s,
    render a4Height a4Width fixedPitch unsplit is_hex_color demoAssembled
      demoOptions initial = Ok (tt, s) /\
    map r_text (filter (is_site SeparatorSite) (runs (doc s))) =
    map (fun f => unsplit (font demoOptions) bold 12 (separator f)
                    (contentWidth a4Width))
        (sortedHighlightedFiles (structure_tableOfContents demoStructure)
           (pushResults demoSettled)).
Proof.
  split; [reflexivity|].
  destruct (assembled_files_rendered a4Height a4Width fixedPitch unsplit
              is_hex_color Doc (fun d : Doc => d) strict_accepts_hex
              "demo"%string demoRepoFiles demoStructure demoSettled
              demoAssembled demoOptions eq_refl) as (s & H1 & _ & H2).
  exists s. split; [exact H1 | exact H2].
Defined.

Lemma assembleRepo_spec_demo :
  List.length demoSettled = List.length demoRepoFiles /\
  Permutation (files demoAssembled) (pushResults demoSettled) /\
  (List.length (files demoAssembled) <= List.length demoRepoFiles)%nat.
Proof.
  split; [reflexivity|].
  destruct (proj2 (assembleRepo_spec demoRepoFiles demoStructure demoSettled
                     eq_refl) demoAssembled eq_refl)
    as (_ & _ & H1 & _ & H2 & _).
  split; [exact H1 | exact H2].
Defined.

Lemma parseRepoUrl_spec_demo :
  parseRepoUrl demoParseURL "https://github.com/facebook/react.git"
  = Some demoRepoRef /\
  owner demoRepoRef <> EmptyString /\
  has "/" (owner demoRepoRef) = false /\ has "/" (repo demoRepoRef) = false.
Proof.
  split; [reflexivity|].
  destruct (parseRepoUrl_spec demoParseURL
              "https://github.com/facebook/react.git" demoRepoRef eq_refl)
    as (pathname & segment & rest & _ & _ & H1 & H2 & H3 & _).
  split; [exact H1|]. split; [exact H2 | exact H3].
Defined.

Lemma lowerAscii_on_7bit :
  forall s, string_forallb is7bit s = true ->
            string_map lowerAscii s = string_map lowerAscii s.
Proof.
  intros s _. reflexivity.
Defined.


Lemma service_errors_classified_demo :
  error_title (classifyError (string_map lowerAscii)
                 (fetchGitHubAPI_error 404 "Not Found"))
  = "Repository Not Found"%string /\
  error_title (classifyError (string_map lowerAscii)
                 (fetchGitHubAPI_error 403 "Forbidden"))
  = "Rate Limit Exceeded"%string.
Proof.
  exact (proj1 (service_errors_classified (string_map lowerAscii)
                  lowerAscii_on_7bit) "Not Found"%string).
Defined.
